(** * migrate_db.js: the one-shot database migration, embedded and verified

    The script reads [../db.json], replaces the [encryptedCode] of every
    account by its decrypted [code], and writes the result to [db.json].

    The embedding follows [src/migrate_db.js] line by line.  Three
    collaborators are libraries the script calls and does not define; they
    are parameters of the development:
    - [JSON.parse], from text to a JSON value or a [SyntaxError];
    - the text layout of [JSON.stringify(_, null, 2)];
    - [CryptoJS.AES.decrypt(_, key).toString(CryptoJS.enc.Utf8)].
    Everything else (property reads, destructuring, truthiness, the object
    spread, the conversion to a string in a template literal and its
    exception, the [try]/[catch] blocks, [process.exit], the console) is
    modelled.  The file system is a finite map from paths to contents: a
    path it holds can be read, and the write of line 54 succeeds. *)

From Stdlib Require Import PrimFloat DecimalString DecimalNat ZArith Ascii String.
From stdpp Require Import base option list strings gmap.

#[local] Set Warnings "-register-all".

(** ** JSON values

    What [JSON.parse] returns.  A number is a binary64 float, as in
    JavaScript.  An object is the list of its own properties in property
    order; [JSON.parse] never yields two properties with one key, and the
    operations below do not depend on that.  A string is held in UTF-8,
    a surrogate that stands alone in three bytes like any other code unit
    of its size: every JavaScript string has one such form, so two strings
    are equal when their bytes are. *)

Inductive json : Type :=
| JNull
| JBool (b : bool)
| JNum (n : float)
| JStr (s : string)
| JArr (items : list json)
| JObj (props : list (string * json)).

(** A value a JavaScript expression can have here: a JSON value, or
    [undefined] ([None]) when a property that does not exist is read. *)
Definition value : Type := option json.

Definition undefined : value := None.

(** ** Properties *)

(** The first property named [k]. *)
Fixpoint lookup_prop (k : string) (ps : list (string * json)) : value :=
  match ps with
  | [] => undefined
  | (k', v) :: ps => if decide (k = k') then Some v else lookup_prop k ps
  end.

(** [{k: v}] written after a spread of [ps]: an existing property keeps its
    place and takes the new value, a new one goes last. *)
Fixpoint set_prop (k : string) (v : json) (ps : list (string * json))
  : list (string * json) :=
  match ps with
  | [] => [(k, v)]
  | (k', v') :: ps =>
      if decide (k = k') then (k, v) :: ps else (k', v') :: set_prop k v ps
  end.

(** The properties of [ps] but those named [k]. *)
Definition omit (k : string) (ps : list (string * json)) : list (string * json) :=
  filter (λ p, p.1 ≠ k) ps.

Definition keys (ps : list (string * json)) : list string := ps.*1.

(** The decimal name of an array index. *)
Definition index_key (i : nat) : string := NilEmpty.string_of_uint (Nat.to_uint i).

(** *** The code units of a string

    JavaScript indexes and measures a string by UTF-16 code units. *)

(** A byte [10xxxxxx], which continues a character. *)
Definition continuation (b : ascii) : bool :=
  (N.land (N_of_ascii b) 192 =? 128)%N.

(** The bytes of a string, character by character: each byte that starts
    a character with the continuation bytes that follow it. *)
Fixpoint characters (bs : list ascii) : list (list ascii) :=
  match bs with
  | [] => []
  | b :: bs =>
      match characters bs with
      | (c :: g) :: gs =>
          if continuation c then (b :: c :: g) :: gs else [b] :: (c :: g) :: gs
      | gs => [b] :: gs
      end
  end.

(** The three bytes of a code unit from [0x0800] up. *)
Definition three_bytes (u : N) : string :=
  string_of_list_ascii
    [ascii_of_N (N.lor 224 (N.shiftr u 12));
     ascii_of_N (N.lor 128 (N.land (N.shiftr u 6) 63));
     ascii_of_N (N.lor 128 (N.land u 63))].

(** The code units of one character: itself, or the two surrogates of a
    character of four bytes. *)
Definition units_of_character (g : list ascii) : list string :=
  match g with
  | [b0; b1; b2; b3] =>
      if (240 <=? N_of_ascii b0)%N then
        let point :=
          N.lor (N.shiftl (N.land (N_of_ascii b0) 7) 18)
                (N.lor (N.shiftl (N.land (N_of_ascii b1) 63) 12)
                       (N.lor (N.shiftl (N.land (N_of_ascii b2) 63) 6)
                              (N.land (N_of_ascii b3) 63))) in
        let u := (point - 65536)%N in
        [three_bytes (55296 + N.shiftr u 10); three_bytes (56320 + N.land u 1023)]
      else [string_of_list_ascii g]
  | _ => [string_of_list_ascii g]
  end.

(** [s[0]], [s[1]], ...: the code units of [s], each a string. *)
Definition code_units (s : string) : list string :=
  characters (list_ascii_of_string s) ≫= units_of_character.

(** The own enumerable properties of a value other than [null], as a rest
    pattern or a spread copies them: the properties of an object, the
    elements of an array under their indices, the code units of a string
    under theirs, and nothing for a number or a boolean. *)
Definition own_enumerable (v : json) : list (string * json) :=
  match v with
  | JObj ps => ps
  | JArr items => imap (λ i x, (index_key i, x)) items
  | JStr s => imap (λ i c, (index_key i, JStr c)) (code_units s)
  | JNull | JBool _ | JNum _ => []
  end.

(** [v.k] for a [v] other than [null] and a name [k] that is neither an
    array index, nor [length], nor a name the built-in prototypes define;
    the script reads [accounts], [settings], [encryptedCode] and [name]
    this way.  Only an object can own such a property. *)
Definition get (v : json) (k : string) : value :=
  match v with
  | JObj ps => lookup_prop k ps
  | _ => undefined
  end.

(** ** Truthiness *)

(** [ToBoolean]: [null], [false], [0], [-0], [NaN] and the empty string are
    falsy, like [undefined]; every object and array is truthy. *)
Definition truthy (v : value) : bool :=
  match v with
  | None => false
  | Some JNull => false
  | Some (JBool b) => b
  | Some (JNum n) => negb (PrimFloat.eqb n 0%float) && PrimFloat.eqb n n
  | Some (JStr s) => negb (bool_decide (s = ""))
  | Some (JArr _) | Some (JObj _) => true
  end.

(** ** Conversion to a string *)

(** [ToString(v)] throws a [TypeError].  A primitive always has a string.
    An object is converted by its [toString] and then its [valueOf]: an
    own property [toString] is a JSON value, which cannot be called, and
    then neither an own [valueOf] nor the inherited one, which returns the
    object, gives a primitive; without an own [toString] the inherited one
    answers.  An array is converted by [join], which converts every
    element but [null]. *)
Fixpoint unprintable (v : json) : bool :=
  match v with
  | JObj ps => bool_decide ("toString" ∈ keys ps)
  | JArr items => existsb unprintable items
  | JNull | JBool _ | JNum _ | JStr _ => false
  end.

(** The same for a value that may be [undefined], which prints. *)
Definition throws_on (v : value) : bool :=
  match v with
  | Some x => unprintable x
  | None => false
  end.

(** ** What [JSON.stringify] makes of a value

    The value its text stands for, and [JSON.parse] would read back: a
    number that is not finite is written [null], and minus zero is written
    [0]; anything else is written as it is. *)
Fixpoint printed (v : json) : json :=
  match v with
  | JNum n =>
      if is_finite n
      then (if is_zero n && get_sign n then JNum 0%float else JNum n)
      else JNull
  | JArr items => JArr (printed <$> items)
  | JObj ps => JObj ((λ p, (p.1, printed p.2)) <$> ps)
  | JNull | JBool _ | JStr _ => v
  end.

(** Every number in [v] is finite and is not minus zero. *)
Fixpoint plain (v : json) : bool :=
  match v with
  | JNum n => is_finite n && negb (is_zero n && get_sign n)
  | JArr items => forallb plain items
  | JObj ps => forallb (λ p, plain p.2) ps
  | JNull | JBool _ | JStr _ => true
  end.

(** ** Exceptions and the console *)

Inductive exn : Type :=
| SyntaxError (message : string)
    (* thrown by [JSON.parse] *)
| TypeError_nullish (object property : string)
    (* [property] read from [object], which is [null] or [undefined] *)
| TypeError_not_a_function (callee : string)
| TypeError_not_primitive (expression : string).
    (* [expression], an object, has no string to be printed as *)

Inductive console_method : Type := log | warn | error.

(** The pieces a console line is printed from: literal text, a value a
    template literal interpolates (its conversion to a string did not
    throw; the string itself is not modelled), a length, a caught
    exception. *)
Inductive piece : Type :=
| Text (s : string)
| Value (v : value)
| Count (n : nat)
| Caught (e : exn).

Record line : Type := Line { method : console_method; pieces : list piece }.

(** ** Computations that write console lines and may throw *)

Definition M (A : Type) : Type := list line * (exn + A).

#[global] Instance M_ret : MRet M := λ A a, ([], inr a).

#[global] Instance M_bind : MBind M := λ A B f m,
  match m with
  | (out, inl e) => (out, inl e)
  | (out, inr a) => let '(out', r) := f a in (out ++ out', r)
  end.

Definition throw {A : Type} (e : exn) : M A := ([], inl e).

Definition console (m : console_method) (ps : list piece) : M unit :=
  ([Line m ps], inr tt).

#[global] Instance console_method_eq_dec : EqDecision console_method.
Proof. solve_decision. Defined.

(** The lines of [out] written with method [m]. *)
Definition written_with (m : console_method) (out : list line) : list line :=
  filter (λ l, method l = m) out.

(** What a library call does: it returns, or throws an exception with a
    message. *)
Inductive attempt (A : Type) : Type :=
| Returns (a : A)
| Throws (message : string).
Arguments Returns {A} a.
Arguments Throws {A} message.

(** ** The script *)

Definition PARENT_DB_PATH : string := "../db.json".
Definition TARGET_DB_PATH : string := "db.json".
Definition SECRET_KEY : string :=
  "F3C1A98E3D77C2159E4B1A6FD04C2B7838DA1F457E66BE9F02C91BBE6D7AF29E".

(** [newDb], the object the script assembles: two properties, of which
    [settings] holds [undefined] when the input has none. *)
Record document : Type := Document { accounts : list json; settings : value }.

(** The JSON value whose text [JSON.stringify] writes for [newDb]: a
    property whose value is [undefined] is left out.  Every other value in
    [newDb] comes from [JSON.parse] or is a string, and is written as it
    is; how a number is printed is left to the printer. *)
Definition serialized (newDb : document) : json :=
  JObj (("accounts", JArr (accounts newDb)) ::
        match settings newDb with
        | Some s => [("settings", s)]
        | None => []
        end).

(** The process after the script has run. *)
Record world : Type := World {
  files : gmap string string;   (* path to content *)
  stdio : list line;            (* the console, oldest line first *)
  exit_code : option Z          (* [Some c] after [process.exit(c)] *)
}.

(** ** Sample collaborators and inputs

    A stand-in for each library, defined on the values the examples use. *)

Module Sample.

(** A parser given by a table from file text to the value it denotes. *)
Definition parse_table (table : list (string * json)) (raw : string) : attempt json :=
  match list_find (λ p, p.1 = raw) table with
  | Some (_, (_, v)) => Returns v
  | None => Throws "Unexpected end of JSON input"
  end.

(** A printer that only tells documents apart by their top-level keys. *)
Definition stringify (v : json) : string :=
  match v with
  | JObj ps => String.concat "," ps.*1
  | _ => "?"
  end.

(** A cipher that decrypts one ciphertext to [ABC123], rejects strings
    that start with [!], and yields nothing otherwise. *)
Definition cipher (ciphertext : json) (key : string) : attempt string :=
  match ciphertext with
  | JStr "U2FsdGVkX1+validCipherOfABC123" =>
      if decide (key = SECRET_KEY) then Returns "ABC123" else Returns ""
  | JStr (String "!"%char _) => Throws "Malformed UTF-8 data"
  | _ => Returns ""
  end.

Definition acct1 : json :=
  JObj [("name", JStr "acct1");
        ("encryptedCode", JStr "U2FsdGVkX1+validCipherOfABC123")].
Definition acct2 : json := JObj [("name", JStr "acct2")].
Definition acct3 : json :=
  JObj [("name", JStr "acct3"); ("encryptedCode", JStr "!corrupted");
        ("level", JNum 7%float)].
Definition acct4 : json :=
  JObj [("name", JStr "acct4"); ("code", JNum 7%float); ("encryptedCode", JStr "")].
Definition acct5 : json :=
  JObj [("name", JStr "acct5"); ("encryptedCode", JNull)].

Definition theme : json := JObj [("theme", JStr "dark")].

Definition db : json :=
  JObj [("accounts", JArr [acct1; acct2; acct3; acct4; acct5]);
        ("settings", theme); ("version", JNum 2%float)].
Definition db_without_settings : json :=
  JObj [("accounts", JArr [acct1; acct2]); ("version", JNum 2%float)].

(** The accounts the script writes for [db]. *)
Definition migrated : list json :=
  [JObj [("name", JStr "acct1"); ("code", JStr "ABC123")];
   JObj [("name", JStr "acct2"); ("code", JStr "")];
   JObj [("name", JStr "acct3"); ("level", JNum 7%float); ("code", JStr "")];
   JObj [("name", JStr "acct4"); ("code", JStr "")];
   JObj [("name", JStr "acct5"); ("code", JStr "")]].

Definition parse : string → attempt json :=
  parse_table [("<db>", db); ("<db without settings>", db_without_settings);
               ("null", JNull)].

Definition fs : gmap string string := {[ PARENT_DB_PATH := "<db>" ]}.
Definition fs_without_settings : gmap string string :=
  {[ PARENT_DB_PATH := "<db without settings>" ]}.
Definition fs_invalid : gmap string string := {[ PARENT_DB_PATH := "{" ]}.
Definition fs_without_source : gmap string string := {[ TARGET_DB_PATH := "old" ]}.

End Sample.

(** Inputs on which the run fails, and a second cipher. *)

Module Edge.

Import Sample.

(** A name that cannot be printed. *)
Definition nameless : json := JObj [("toString", JNum 0%float)].

Definition acct_unprintable : json :=
  JObj [("name", nameless); ("encryptedCode", JStr "!corrupted")].
Definition acct_unprintable_decrypted : json :=
  JObj [("name", nameless);
        ("encryptedCode", JStr "U2FsdGVkX1+validCipherOfABC123")].

Definition db_null_account : json :=
  JObj [("accounts", JArr [acct3; JNull; acct1]); ("settings", theme)].
Definition db_unprintable : json :=
  JObj [("accounts", JArr [acct2; acct_unprintable; acct1]); ("settings", theme)].
Definition db_accounts_string : json :=
  JObj [("accounts", JStr "a€😀"); ("settings", theme)].
Definition db_accounts_object : json :=
  JObj [("accounts", JObj [("length", nameless)]); ("settings", theme)].
Definition db_infinite : json :=
  JObj [("accounts", JArr [acct1]); ("settings", JObj [("x", JNum infinity)])].

Definition parse : string → attempt json :=
  parse_table [("<db with a null account>", db_null_account);
               ("<db with a name that cannot be printed>", db_unprintable);
               ("<db with a string for accounts>", db_accounts_string);
               ("<db with an object for accounts>", db_accounts_object);
               ("<db with 1e400 in settings>", db_infinite)].

Definition fs_null_account : gmap string string :=
  {[ PARENT_DB_PATH := "<db with a null account>"; TARGET_DB_PATH := "old" ]}.
Definition fs_unprintable : gmap string string :=
  {[ PARENT_DB_PATH := "<db with a name that cannot be printed>";
     TARGET_DB_PATH := "old" ]}.
Definition fs_accounts_string : gmap string string :=
  {[ PARENT_DB_PATH := "<db with a string for accounts>" ]}.
Definition fs_accounts_object : gmap string string :=
  {[ PARENT_DB_PATH := "<db with an object for accounts>" ]}.
Definition fs_infinite : gmap string string :=
  {[ PARENT_DB_PATH := "<db with 1e400 in settings>" ]}.

(** A cipher that does as [cipher] under [SECRET_KEY] on every ciphertext
    but the empty string, and otherwise differs. *)
Definition other_cipher (ciphertext : json) (key : string) : attempt string :=
  if decide (key = SECRET_KEY) then
    match ciphertext with
    | JStr "" => Returns "plaintext of nothing"
    | _ => cipher ciphertext key
    end
  else Throws "wrong key".

(** A printer with one text, and a parser that reads it back as the
    document written for [db]. *)
Definition print (v : json) : string := "<db, migrated>".

Definition parse_back : string → attempt json :=
  parse_table [("<db>", db);
               ("<db, migrated>",
                JObj [("accounts", JArr migrated); ("settings", theme)])].

Definition fs_migrated : gmap string string :=
  {[ PARENT_DB_PATH := "<db, migrated>" ]}.

End Edge.

(** * The script *)

Section Migrate.

(** [JSON.parse(raw)]. *)
Variable JSON_parse : string → attempt json.
(** The text of [JSON.stringify(v, null, 2)] for a JSON value [v]. *)
Variable JSON_stringify : json → string.
(** [CryptoJS.AES.decrypt(ciphertext, key).toString(CryptoJS.enc.Utf8)]. *)
Variable AES_decrypt_Utf8 : json → string → attempt string.

(** Lines 8-16.  [None] is the [null] returned after an exception. *)
Definition decrypt (ciphertext : json) : M (option string) :=
  match AES_decrypt_Utf8 ciphertext SECRET_KEY with
  | Returns plaintext => mret (Some plaintext)
  | Throws message =>
      console error [Text "Decryption error:"; Text message];;
      mret None
  end.

(** Line 31: [const { encryptedCode, ...rest } = acc]. *)
Definition destructure (acc : json) : M (value * list (string * json)) :=
  match acc with
  | JNull => throw (TypeError_nullish "acc" "encryptedCode")
  | _ => mret (get acc "encryptedCode", omit "encryptedCode" (own_enumerable acc))
  end.

(** [${expression}] in a template literal: the value is converted to a
    string when the literal is evaluated, before the console is called. *)
Definition interpolate (expression : string) (v : value) : M piece :=
  if throws_on v then throw (TypeError_not_primitive expression)
  else mret (Value v).

(** The pieces of the warning of line 39, once [acc.name] has been
    converted. *)
Definition warning (acc : json) : list piece :=
  [Text "[WARN] Could not decrypt code for "; Value (get acc "name");
   Text ". Keeping null/empty."].

(** Lines 29-47, the function mapped over [db.accounts]. *)
Definition migrate_account (acc : json) : M json :=
  '(encryptedCode, rest) ← destructure acc;
  (* lines 33-36: [plainCode] stays [null] unless [encryptedCode] is truthy *)
  plainCode ← match encryptedCode with
              | Some ciphertext =>
                  if truthy encryptedCode then decrypt ciphertext else mret None
              | None => mret None
              end;
  (* lines 38-41: [!plainCode] holds of [null] and of the empty string *)
  plainCode ← match plainCode with
              | Some (String c s) => mret (String c s)
              | Some EmptyString | None =>
                  name ← interpolate "acc.name" (get acc "name");
                  console warn [Text "[WARN] Could not decrypt code for "; name;
                                Text ". Keeping null/empty."];;
                  mret ""
              end;
  (* lines 43-46 *)
  mret (JObj (set_prop "code" (JStr plainCode) rest)).

(** [xs.map(f)] for an array [xs]: left to right, stopping at the first
    exception. *)
Fixpoint array_map (f : json → M json) (xs : list json) : M (list json) :=
  match xs with
  | [] => mret []
  | x :: xs => y ← f x; ys ← array_map f xs; mret (y :: ys)
  end.

(** [${v.length}] for the value [v] of [db.accounts], in the log line of
    line 27: the length of an array or of a string is a number; that of
    an object is its own property [length], converted to a string. *)
Definition length_of (v : value) : M piece :=
  match v with
  | None | Some JNull => throw (TypeError_nullish "db.accounts" "length")
  | Some (JArr items) => mret (Count (length items))
  | Some (JStr s) => mret (Count (length (code_units s)))
  | Some (JObj ps) => interpolate "db.accounts.length" (lookup_prop "length" ps)
  | Some (JBool _) | Some (JNum _) => mret (Value undefined)
  end.

(** Line 27: [db.accounts.length]. *)
Definition accounts_length (db : json) : M piece :=
  match db with
  | JNull => throw (TypeError_nullish "db" "accounts")
  | _ => length_of (get db "accounts")
  end.

(** Line 29: [db.accounts.map(...)]; only an array has a [map] that can be
    called. *)
Definition newAccounts (db : json) : M (list json) :=
  match get db "accounts" with
  | Some (JArr items) => array_map migrate_account items
  | _ => throw (TypeError_not_a_function "db.accounts.map")
  end.

(** Lines 25-52: from the text read to [newDb]. *)
Definition newDb (raw : string) : M document :=
  db ← match JSON_parse raw with
       | Returns db => mret db
       | Throws message => throw (SyntaxError message)
       end;
  n ← accounts_length db;
  console log [Text "Loaded DB with "; n; Text " accounts."];;
  accs ← newAccounts db;
  mret (Document accs (get db "settings")).

(** Lines 18-59: the whole script, run on a file system.  After
    [process.exit(1)] nothing else runs; an exception thrown in the [try]
    block is caught at line 57, before the write if it comes from
    [newDb]. *)
Definition migrate (fs : gmap string string) : world :=
  match fs !! PARENT_DB_PATH with
  | None =>
      World fs [Line error [Text ("Parent DB not found at " +:+ PARENT_DB_PATH)]]
            (Some 1%Z)
  | Some raw =>
      match newDb raw with
      | (out, inr doc) =>
          World (<[TARGET_DB_PATH := JSON_stringify (serialized doc)]> fs)
                (out ++ [Line log [Text ("[SUCCESS] Migrated DB saved to "
                                         +:+ TARGET_DB_PATH)]])
                None
      | (out, inl e) =>
          World fs (out ++ [Line error [Text "Migration failed:"; Caught e]]) None
      end
  end.

(** ** The documents of a run *)

(** The input document: what [JSON.parse] makes of the source file. *)
Definition input_document (fs : gmap string string) : option json :=
  raw ← fs !! PARENT_DB_PATH;
  match JSON_parse raw with
  | Returns db => Some db
  | Throws _ => None
  end.

(** Its accounts, when [db.accounts] is an array. *)
Definition input_accounts (fs : gmap string string) : option (list json) :=
  db ← input_document fs;
  match get db "accounts" with
  | Some (JArr items) => Some items
  | _ => None
  end.

(** The output document: the [newDb] the run assembles, if it gets there. *)
Definition output_document (fs : gmap string string) : option document :=
  raw ← fs !! PARENT_DB_PATH;
  match newDb raw with
  | (_, inr doc) => Some doc
  | (_, inl _) => None
  end.

(** No non-empty plaintext comes out of [acc]: it has no [encryptedCode],
    or a falsy one, or decryption throws, or decrypts to the empty string.
    This is when the script says it could not decrypt the code. *)
Definition undecrypted (acc : json) : bool :=
  match get acc "encryptedCode" with
  | Some ciphertext =>
      if truthy (Some ciphertext) then
        match AES_decrypt_Utf8 ciphertext SECRET_KEY with
        | Returns (String _ _) => false
        | Returns EmptyString | Throws _ => true
        end
      else true
  | None => true
  end.

(** The output account with code [c]: the input's properties without
    [encryptedCode], and [code]. *)
Definition with_code (c : string) (acc : json) : json :=
  JObj (set_prop "code" (JStr c) (omit "encryptedCode" (own_enumerable acc))).

(** The log lines of lines 27 and 55. *)
Definition loaded (n : nat) : line :=
  Line log [Text "Loaded DB with "; Count n; Text " accounts."].

Definition saved : line :=
  Line log [Text ("[SUCCESS] Migrated DB saved to " +:+ TARGET_DB_PATH)].

(** The error lines of lines 13 and 58. *)
Definition decryption_error (message : string) : line :=
  Line error [Text "Decryption error:"; Text message].

Definition failed (e : exn) : line :=
  Line error [Text "Migration failed:"; Caught e].

(** The message of the exception the library throws on the
    [encryptedCode] of [acc], when [decrypt] is called on it and the
    library throws. *)
Definition thrown (acc : json) : option string :=
  match get acc "encryptedCode" with
  | Some ciphertext =>
      if truthy (Some ciphertext) then
        match AES_decrypt_Utf8 ciphertext SECRET_KEY with
        | Throws message => Some message
        | Returns _ => None
        end
      else None
  | None => None
  end.

(** The plaintext [decrypt] returns for [acc], the empty string when it
    is not called or the library throws. *)
Definition plaintext (acc : json) : string :=
  match get acc "encryptedCode" with
  | Some ciphertext =>
      if truthy (Some ciphertext) then
        match AES_decrypt_Utf8 ciphertext SECRET_KEY with
        | Returns s => s
        | Throws _ => ""
        end
      else ""
  | None => ""
  end.

(** The account function returns on [acc]: it is not [null], and its
    name can be printed if the warning is to be written. *)
Definition migrates (acc : json) : bool :=
  match acc with
  | JNull => false
  | _ => negb (undecrypted acc && throws_on (get acc "name"))
  end.

(** The console lines of one account that is not [null]: the decryption
    error, if any, and then the warning, if it is to be written and the
    name can be printed. *)
Definition account_lines (acc : json) : list line :=
  match thrown acc with
  | Some message => [decryption_error message]
  | None => []
  end ++
  if undecrypted acc && negb (throws_on (get acc "name"))
  then [Line warn (warning acc)] else [].

(** * Properties *)

(** ** Property lists *)

Section Props.

Implicit Types (k : string) (v : json) (ps : list (string * json)).

Lemma lookup_set_prop_eq k v ps : lookup_prop k (set_prop k v ps) = Some v.
Proof.
  induction ps as [|[k' v'] ps IH]; simpl.
  - by rewrite decide_True.
  - destruct (decide (k = k')) as [->|Hne]; simpl.
    + by rewrite decide_True.
    + by rewrite decide_False.
Qed.

Lemma lookup_set_prop_ne k k' v ps :
  k ≠ k' → lookup_prop k' (set_prop k v ps) = lookup_prop k' ps.
Proof.
  intros Hne. induction ps as [|[k0 v0] ps IH]; simpl.
  - rewrite decide_False; [done | congruence].
  - destruct (decide (k = k0)) as [->|Hk]; simpl.
    + rewrite !decide_False; [done | congruence..].
    + by rewrite IH.
Qed.

Lemma lookup_omit_eq k ps : lookup_prop k (omit k ps) = undefined.
Proof.
  unfold omit. induction ps as [|[k' v'] ps IH]; [done|].
  rewrite filter_cons. simpl. destruct (decide (k' ≠ k)) as [Hne|Heq]; [|done].
  simpl. rewrite decide_False; [done | congruence].
Qed.

Lemma lookup_omit_ne k k' ps :
  k ≠ k' → lookup_prop k' (omit k ps) = lookup_prop k' ps.
Proof.
  intros Hne. unfold omit. induction ps as [|[k0 v0] ps IH]; [done|].
  rewrite filter_cons. simpl. destruct (decide (k0 ≠ k)) as [Hk|Hk]; simpl.
  - by rewrite IH.
  - apply dec_stable in Hk as ->. rewrite decide_False; [done | congruence].
Qed.

Lemma keys_omit k ps : keys (omit k ps) = filter (λ k', k' ≠ k) (keys ps).
Proof.
  unfold keys, omit. induction ps as [|[k0 v0] ps IH]; [done|].
  rewrite fmap_cons. simpl. destruct (decide (k0 ≠ k)) as [Hk|Hk].
  - rewrite !filter_cons_True by done. by rewrite fmap_cons, IH.
  - by rewrite !filter_cons_False.
Qed.

Lemma keys_set_prop k v ps :
  keys (set_prop k v ps) =
    if decide (k ∈ keys ps) then keys ps else keys ps ++ [k].
Proof.
  unfold keys. induction ps as [|[k0 v0] ps IH].
  - cbn [set_prop fmap list_fmap fst]. case_decide as Hin; [|done].
    by apply not_elem_of_nil in Hin.
  - cbn [set_prop]. destruct (decide (k = k0)) as [->|Hne].
    + clear IH. cbn [fmap list_fmap fst]. case_decide as Hin; [done|].
      destruct Hin. apply list_elem_of_here.
    + rewrite !fmap_cons, IH. clear IH. cbn [fst].
      destruct (decide (k ∈ ps.*1)) as [Hin|Hin]; case_decide as Hin'; try done.
      * destruct Hin'. by apply list_elem_of_further.
      * apply elem_of_cons in Hin' as [?|?]; congruence.
Qed.

Lemma lookup_prop_None k ps : lookup_prop k ps = undefined ↔ k ∉ keys ps.
Proof.
  unfold keys. induction ps as [|[k0 v0] ps IH]; simpl.
  - split; [intros _; apply not_elem_of_nil | done].
  - destruct (decide (k = k0)) as [->|Hne].
    + split; [done | intros Hk; contradict Hk; apply list_elem_of_here].
    + rewrite IH, not_elem_of_cons. tauto.
Qed.

End Props.

Lemma omit_set_prop_ne k k' v ps :
  k ≠ k' → omit k (set_prop k' v ps) = set_prop k' v (omit k ps).
Proof.
  intros Hne. unfold omit. induction ps as [|[k0 v0] ps IH]; cbn [set_prop].
  - rewrite filter_cons_True by (simpl; congruence). done.
  - destruct (decide (k' = k0)) as [<-|Hk0].
    + rewrite !filter_cons_True by (simpl; congruence).
      cbn [set_prop]. by rewrite decide_True.
    + destruct (decide (k0 = k)) as [->|Hk].
      * rewrite !filter_cons_False by (simpl; auto). done.
      * rewrite !filter_cons_True by done.
        cbn [set_prop]. by rewrite decide_False, IH.
Qed.

Lemma omit_omit k ps : omit k (omit k ps) = omit k ps.
Proof.
  unfold omit. induction ps as [|[k0 v0] ps IH]; [done|].
  destruct (decide (k0 = k)) as [->|Hk].
  - by rewrite !filter_cons_False by (simpl; auto).
  - rewrite !filter_cons_True by done. by rewrite IH.
Qed.

Lemma set_prop_set_prop k v v' ps :
  set_prop k v (set_prop k v' ps) = set_prop k v ps.
Proof.
  induction ps as [|[k0 v0] ps IH]; cbn [set_prop].
  - by rewrite decide_True.
  - destruct (decide (k = k0)) as [->|Hk]; cbn [set_prop].
    + by rewrite decide_True.
    + by rewrite decide_False, IH.
Qed.

Lemma index_key_inj i j : index_key i = index_key j → i = j.
Proof.
  unfold index_key. intros Heq. apply Unsigned.to_uint_inj.
  apply (f_equal NilEmpty.uint_of_string) in Heq.
  rewrite !NilEmpty.usu in Heq. by injection Heq.
Qed.

Lemma index_key_not_code i : index_key i ≠ "code" ∧ index_key i ≠ "encryptedCode".
Proof. unfold index_key. by destruct (Nat.to_uint i). Qed.

(** The properties of an array or of a string, read back by index. *)
Lemma lookup_prop_imap {A} (h : nat → string) (g : A → json) (l : list A) i :
  (∀ i j, h i = h j → i = j) →
  lookup_prop (h i) (imap (λ j x, (h j, g x)) l) = g <$> l !! i.
Proof.
  revert h i. induction l as [|x l IH]; intros h i Hinj; [done|].
  cbn [imap lookup_prop]. destruct i as [|i].
  - by rewrite decide_True.
  - rewrite decide_False by (intros Heq; by apply Hinj in Heq).
    apply (IH (h ∘ S)). intros j j' Heq. apply Hinj in Heq. by injection Heq.
Qed.

Lemma keys_imap {A} (h : nat → string) (g : A → json) (l : list A) :
  keys (imap (λ j x, (h j, g x)) l) = h <$> seq 0 (length l).
Proof.
  unfold keys. revert h. induction l as [|x l IH]; intros h; [done|].
  cbn [imap length seq].
  change (imap ((λ j x0, (h j, g x0)) ∘ S) l)
    with (imap (λ j x0, ((h ∘ S) j, g x0)) l).
  rewrite !fmap_cons, (IH (h ∘ S)).
  by rewrite <- seq_shift, <- list_fmap_compose.
Qed.

Lemma omit_not_in k ps : k ∉ keys ps → omit k ps = ps.
Proof.
  unfold omit, keys. induction ps as [|[k0 v0] ps IH]; [done|].
  rewrite fmap_cons, not_elem_of_cons. simpl. intros [Hk Hps].
  rewrite filter_cons_True by (simpl; congruence). by rewrite IH.
Qed.

Lemma imap_no_key {A} (h : nat → string) (g : A → json) (l : list A) k :
  (∀ j, h j ≠ k) → k ∉ keys (imap (λ j x, (h j, g x)) l).
Proof.
  intros Hk. rewrite keys_imap. intros (j & -> & _)%list_elem_of_fmap.
  by apply (Hk j).
Qed.

Lemma with_code_with_code c c' acc :
  with_code c (with_code c' acc) = with_code c acc.
Proof.
  unfold with_code. cbn [own_enumerable].
  by rewrite omit_set_prop_ne, omit_omit, set_prop_set_prop.
Qed.

Lemma get_with_code c acc : get (with_code c acc) "code" = Some (JStr c).
Proof. apply lookup_set_prop_eq. Qed.

Lemma printed_plain v : plain v = true → printed v = v.
Proof.
  revert v. fix IH 1. intros [|b|n|s|items|ps]; simpl; try done.
  - by intros [-> ->%negb_true_iff]%andb_prop.
  - intros Hitems. f_equal.
    induction items as [|x items IHitems]; [done|]. simpl in Hitems.
    apply andb_prop in Hitems as [Hx Hitems].
    rewrite fmap_cons, (IH x Hx). f_equal. by apply IHitems.
  - intros Hps. f_equal.
    induction ps as [|[k x] ps IHps]; [done|]. simpl in Hps.
    apply andb_prop in Hps as [Hx Hps].
    rewrite fmap_cons. simpl. rewrite (IH x Hx). f_equal. by apply IHps.
Qed.

(** ** The account function *)

Ltac run := unfold migrate_account, destructure, decrypt, interpolate, console, throw;
            unfold mbind, M_bind, mret, M_ret.

Lemma migrate_account_null :
  migrate_account JNull = ([], inl (TypeError_nullish "acc" "encryptedCode")).
Proof. reflexivity. Qed.

Lemma migrate_account_decrypted acc ciphertext S :
  get acc "encryptedCode" = Some ciphertext →
  truthy (Some ciphertext) = true →
  AES_decrypt_Utf8 ciphertext SECRET_KEY = Returns S →
  S ≠ "" →
  migrate_account acc = ([], inr (with_code S acc)).
Proof.
  intros Hget Htruthy Hdec HS. destruct acc; try discriminate.
  run. rewrite Hget, Htruthy, Hdec. by destruct S.
Qed.

Lemma undecrypted_plaintext acc : undecrypted acc = true ↔ plaintext acc = "".
Proof.
  unfold undecrypted, plaintext.
  destruct (get acc "encryptedCode") as [ciphertext|]; [|done].
  destruct (truthy (Some ciphertext)); [|done].
  by destruct (AES_decrypt_Utf8 ciphertext SECRET_KEY) as [[|c s]|message].
Qed.

(** The account function on an account that is not [null], in full: its
    lines, and its exception or its output. *)
Lemma migrate_account_spec acc :
  acc ≠ JNull →
  migrate_account acc =
    (account_lines acc,
     if undecrypted acc && throws_on (get acc "name")
     then inl (TypeError_not_primitive "acc.name")
     else inr (with_code (plaintext acc) acc)).
Proof.
  intros Hacc.
  unfold account_lines, thrown, undecrypted, plaintext, with_code, warning.
  destruct acc as [|b|n|s|items|props]; [done|try reflexivity..].
  run. cbn [get own_enumerable].
  destruct (lookup_prop "encryptedCode" props) as [ciphertext|];
    [destruct (truthy (Some ciphertext));
     [destruct (AES_decrypt_Utf8 ciphertext SECRET_KEY) as [[|c s]|message]|]|];
    try reflexivity;
    by destruct (throws_on (lookup_prop "name" props)).
Qed.

Lemma migrate_account_migrates acc :
  migrates acc = true →
  migrate_account acc = (account_lines acc, inr (with_code (plaintext acc) acc)).
Proof.
  intros Hacc. rewrite migrate_account_spec by (by intros ->).
  destruct acc; try done; unfold migrates in Hacc;
    by apply negb_true_iff in Hacc as ->.
Qed.

Lemma migrate_account_aborts acc :
  migrates acc = false →
  ∃ out e, migrate_account acc = (out, inl e).
Proof.
  intros Hacc. destruct acc as [|b|n|s|items|props];
    [by eexists _, _|rewrite migrate_account_spec by done..];
    unfold migrates in Hacc; apply negb_false_iff in Hacc; rewrite Hacc; eauto.
Qed.

(** It returns exactly on the accounts that [migrates] tells. *)
Lemma migrate_account_returns acc out acc' :
  migrate_account acc = (out, inr acc') →
  migrates acc = true ∧ out = account_lines acc ∧
  acc' = with_code (plaintext acc) acc.
Proof.
  intros Hacc. destruct (migrates acc) eqn:Hm.
  - rewrite (migrate_account_migrates _ Hm) in Hacc. by injection Hacc as <- <-.
  - destruct (migrate_account_aborts _ Hm) as (out' & e & Habort). congruence.
Qed.

(** ** Mapping over the accounts *)

Section ArrayMap.

Variable f : json → M json.

Lemma array_map_step x xs out y :
  f x = (out, inr y) →
  array_map f (x :: xs) =
    (out ++ (array_map f xs).1,
     match (array_map f xs).2 with
     | inl e => inl e
     | inr ys => inr (y :: ys)
     end).
Proof.
  intros Hx. cbn [array_map]. unfold mbind, M_bind, mret, M_ret. rewrite Hx.
  destruct (array_map f xs) as [out' [e|ys]]; simpl; by rewrite ?app_nil_r.
Qed.

Lemma array_map_stop x xs out e :
  f x = (out, inl e) → array_map f (x :: xs) = (out, inl e).
Proof.
  intros Hx. cbn [array_map]. unfold mbind, M_bind. by rewrite Hx.
Qed.

(** After a prefix that returned, the map goes on with what follows. *)
Lemma array_map_app xs1 xs2 out1 ys1 :
  array_map f xs1 = (out1, inr ys1) →
  array_map f (xs1 ++ xs2) =
    (out1 ++ (array_map f xs2).1,
     match (array_map f xs2).2 with
     | inl e => inl e
     | inr ys2 => inr (ys1 ++ ys2)
     end).
Proof.
  revert out1 ys1. induction xs1 as [|x xs1 IH]; intros out1 ys1 Hxs1.
  - injection Hxs1 as <- <-. simpl.
    by destruct (array_map f xs2) as [out2 [e|ys2]].
  - rewrite <- app_comm_cons. destruct (f x) as [out [e|y]] eqn:Hx.
    + by rewrite (array_map_stop _ _ _ _ Hx) in Hxs1.
    + rewrite (array_map_step _ _ _ _ Hx) in Hxs1.
      rewrite (array_map_step _ _ _ _ Hx).
      destruct (array_map f xs1) as [out' [e|ys]] eqn:Hxs; [done|].
      injection Hxs1 as <- <-. rewrite (IH _ _ eq_refl). simpl.
      rewrite app_assoc. by destruct (array_map f xs2) as [out2 [e|ys2]].
Qed.

(** When the map returns, every element was mapped, in place. *)
Lemma array_map_inv xs out ys :
  array_map f xs = (out, inr ys) →
  Forall2 (λ x y, ∃ outx, f x = (outx, inr y)) xs ys.
Proof.
  revert out ys. induction xs as [|x xs IH]; intros out ys Hxs.
  - injection Hxs as <- <-. constructor.
  - destruct (f x) as [outx [e|y]] eqn:Hx.
    + by rewrite (array_map_stop _ _ _ _ Hx) in Hxs.
    + rewrite (array_map_step _ _ _ _ Hx) in Hxs.
      destruct (array_map f xs) as [out' [e|ys']] eqn:Hxs'; [done|].
      injection Hxs as <- <-. constructor; eauto.
Qed.

(** The map returns when [f] returns on every element. *)
Lemma array_map_returns xs :
  Forall (λ x, ∃ outx y, f x = (outx, inr y)) xs →
  ∃ out ys, array_map f xs = (out, inr ys).
Proof.
  induction 1 as [|x xs (outx & y & Hx) _ (out & ys & Hxs)].
  - by eexists [], [].
  - rewrite (array_map_step _ _ _ _ Hx), Hxs. eauto.
Qed.

End ArrayMap.

(** ** The run *)

(** [newDb] on a document whose [accounts] is an array. *)
Lemma newDb_accounts raw db items :
  JSON_parse raw = Returns db →
  get db "accounts" = Some (JArr items) →
  newDb raw =
    (loaded (length items) :: (array_map migrate_account items).1,
     match (array_map migrate_account items).2 with
     | inl e => inl e
     | inr accs => inr (Document accs (get db "settings"))
     end).
Proof.
  intros Hparse Haccounts. destruct db; try discriminate.
  unfold newDb, accounts_length, length_of, newAccounts, console.
  unfold mbind, M_bind, mret, M_ret. rewrite Hparse. simpl in *.
  rewrite Haccounts. simpl.
  destruct (array_map _ items) as [out [e|accs]]; simpl; by rewrite ?app_nil_r.
Qed.

(** [newDb] returns only on such a document. *)
Lemma newDb_inv raw out doc :
  newDb raw = (out, inr doc) →
  ∃ db items out',
    JSON_parse raw = Returns db ∧
    get db "accounts" = Some (JArr items) ∧
    array_map migrate_account items = (out', inr (accounts doc)) ∧
    out = loaded (length items) :: out' ∧
    settings doc = get db "settings".
Proof.
  intros Hrun. destruct (JSON_parse raw) as [db|message] eqn:Hparse.
  - destruct (get db "accounts") as [[| | | |items|]|] eqn:Haccounts.
    5: { rewrite (newDb_accounts _ _ _ Hparse Haccounts) in Hrun.
         destruct (array_map _ items) as [out' [e|accs]] eqn:Hmap; [done|].
         injection Hrun as <- <-. by exists db, items, out'. }
    all: exfalso; revert Hrun;
      unfold newDb, accounts_length, length_of, newAccounts, interpolate,
        console, throw;
      unfold mbind, M_bind, mret, M_ret; rewrite Hparse;
      destruct db; simpl in *; try done; rewrite Haccounts;
      try done; by destruct (throws_on _).
  - exfalso. revert Hrun. unfold newDb, throw.
    unfold mbind, M_bind. by rewrite Hparse.
Qed.

(** What the script leaves behind, by what [newDb] does. *)
Lemma migrate_saved fs raw out doc :
  fs !! PARENT_DB_PATH = Some raw →
  newDb raw = (out, inr doc) →
  migrate fs =
    World (<[TARGET_DB_PATH := JSON_stringify (serialized doc)]> fs)
          (out ++ [saved]) None.
Proof. intros Hraw Hrun. unfold migrate. by rewrite Hraw, Hrun. Qed.

Lemma migrate_failed fs raw out e :
  fs !! PARENT_DB_PATH = Some raw →
  newDb raw = (out, inl e) →
  migrate fs =
    World fs (out ++ [Line error [Text "Migration failed:"; Caught e]]) None.
Proof. intros Hraw Hrun. unfold migrate. by rewrite Hraw, Hrun. Qed.

(** The output document exists exactly when the destination is written,
    and then the destination holds its text. *)
Lemma migrate_files fs :
  files (migrate fs) =
    match output_document fs with
    | Some doc => <[TARGET_DB_PATH := JSON_stringify (serialized doc)]> fs
    | None => fs
    end.
Proof.
  unfold migrate, output_document.
  destruct (fs !! PARENT_DB_PATH) as [raw|]; [|done]. simpl.
  by destruct (newDb raw) as [out [e|doc]].
Qed.

(** The accounts of the two documents, index by index. *)
Lemma documents_inv fs doc :
  output_document fs = Some doc →
  ∃ db items out,
    input_document fs = Some db ∧
    input_accounts fs = Some items ∧
    array_map migrate_account items = (out, inr (accounts doc)) ∧
    settings doc = get db "settings".
Proof.
  unfold output_document, input_accounts, input_document.
  destruct (fs !! PARENT_DB_PATH) as [raw|]; [|done]. simpl.
  destruct (newDb raw) as [out [e|doc']] eqn:Hrun; [done|].
  intros [= ->]. apply newDb_inv in Hrun
    as (db & items & out' & Hparse & Haccounts & Hmap & _ & Hsettings).
  exists db, items, out'. by rewrite Hparse; simpl; rewrite Haccounts.
Qed.

Lemma output_account fs items doc i acc :
  input_accounts fs = Some items →
  output_document fs = Some doc →
  items !! i = Some acc →
  ∃ out acc', migrate_account acc = (out, inr acc') ∧ accounts doc !! i = Some acc'.
Proof.
  intros Hitems (db & items' & out & _ & Hitems' & Hmap & _)%documents_inv Hi.
  rewrite Hitems in Hitems'. injection Hitems' as <-.
  apply array_map_inv in Hmap.
  destruct (Forall2_lookup_l _ _ _ _ _ Hmap Hi) as (acc' & Hi' & outx & Hacc).
  eauto.
Qed.

Lemma output_account_eq fs items doc i acc out acc' :
  migrate_account acc = (out, inr acc') →
  input_accounts fs = Some items →
  output_document fs = Some doc →
  items !! i = Some acc →
  accounts doc !! i = Some acc'.
Proof.
  intros Hacc Hitems Hdoc Hi.
  destruct (output_account _ _ _ _ _ Hitems Hdoc Hi) as (out' & acc'' & Hacc' & Hi').
  rewrite Hacc in Hacc'. by injection Hacc' as <- <-.
Qed.

(** A run on a source whose accounts are an array returns when no account
    is [null]. *)
(** The console of a run that read the source. *)
Lemma migrate_stdio fs raw :
  fs !! PARENT_DB_PATH = Some raw →
  stdio (migrate fs) =
    (newDb raw).1 ++
    [match (newDb raw).2 with
     | inl e => Line error [Text "Migration failed:"; Caught e]
     | inr _ => saved
     end].
Proof.
  intros Hraw. unfold migrate. rewrite Hraw.
  by destruct (newDb raw) as [out [e|doc]].
Qed.

Lemma input_document_inv fs db :
  input_document fs = Some db →
  ∃ raw, fs !! PARENT_DB_PATH = Some raw ∧ JSON_parse raw = Returns db.
Proof.
  unfold input_document.
  destruct (fs !! PARENT_DB_PATH) as [raw|]; [simpl | done].
  destruct (JSON_parse raw) as [db'|] eqn:Hparse; [|done].
  intros [= ->]. eauto.
Qed.

Lemma input_accounts_inv fs items :
  input_accounts fs = Some items →
  ∃ raw db,
    fs !! PARENT_DB_PATH = Some raw ∧
    JSON_parse raw = Returns db ∧
    input_document fs = Some db ∧
    get db "accounts" = Some (JArr items).
Proof.
  unfold input_accounts, input_document.
  destruct (fs !! PARENT_DB_PATH) as [raw|]; [simpl | done].
  destruct (JSON_parse raw) as [db|] eqn:Hparse; [simpl | done].
  destruct (get db "accounts") as [[| | | |items'|]|] eqn:Haccounts; try done.
  intros [= ->]. by exists raw, db.
Qed.

Lemma get_serialized_settings doc : get (serialized doc) "settings" = settings doc.
Proof. unfold serialized. simpl. by destruct (settings doc). Qed.

(** The map over accounts that all migrate. *)
Lemma array_map_migrates items :
  Forall (λ acc, migrates acc = true) items →
  array_map migrate_account items =
    (concat (account_lines <$> items),
     inr ((λ acc, with_code (plaintext acc) acc) <$> items)).
Proof.
  induction 1 as [|acc items Hacc _ IH]; [done|].
  by rewrite (array_map_step _ _ _ _ _ (migrate_account_migrates _ Hacc)), IH.
Qed.

Lemma array_map_migrated items out accs :
  array_map migrate_account items = (out, inr accs) →
  Forall (λ acc, migrates acc = true) items.
Proof.
  intros Hmap%array_map_inv.
  induction Hmap as [|acc acc' items accs [outx Hacc] _ IH]; constructor; [|done].
  by destruct (migrate_account_returns _ _ _ Hacc).
Qed.

(** A run on a source whose accounts are an array and all migrate. *)
Lemma newDb_migrates raw db items :
  JSON_parse raw = Returns db →
  get db "accounts" = Some (JArr items) →
  Forall (λ acc, migrates acc = true) items →
  newDb raw =
    (loaded (length items) :: concat (account_lines <$> items),
     inr (Document ((λ acc, with_code (plaintext acc) acc) <$> items)
                   (get db "settings"))).
Proof.
  intros Hparse Haccounts Hitems.
  by rewrite (newDb_accounts _ _ _ Hparse Haccounts), (array_map_migrates _ Hitems).
Qed.

(** The run assembles an output document exactly when every account migrates. *)
Lemma output_document_is_Some fs items :
  input_accounts fs = Some items →
  is_Some (output_document fs) ↔ Forall (λ acc, migrates acc = true) items.
Proof.
  intros Hitems. split.
  - intros [doc Hdoc].
    destruct (documents_inv _ _ Hdoc) as (db & items' & out & _ & Hitems' & Hmap & _).
    rewrite Hitems in Hitems'. injection Hitems' as <-.
    by eapply array_map_migrated.
  - intros Hall.
    destruct (input_accounts_inv _ _ Hitems) as (raw & db & Hraw & Hparse & _ & Hacc).
    unfold output_document. rewrite Hraw. simpl.
    by rewrite (newDb_migrates _ _ _ Hparse Hacc Hall).
Qed.

(** The accounts of an output document. *)
Lemma documents_spec fs items doc :
  input_accounts fs = Some items →
  output_document fs = Some doc →
  Forall (λ acc, migrates acc = true) items ∧
  accounts doc = (λ acc, with_code (plaintext acc) acc) <$> items.
Proof.
  intros Hitems Hdoc.
  destruct (documents_inv _ _ Hdoc) as (db & items' & out & _ & Hitems' & Hmap & _).
  rewrite Hitems in Hitems'. injection Hitems' as <-.
  pose proof (array_map_migrated _ _ _ Hmap) as Hall. split; [done|].
  rewrite (array_map_migrates _ Hall) in Hmap. by injection Hmap.
Qed.

(** The warning of an account that migrates is written when it was not
    decrypted. *)
Lemma account_lines_warn acc :
  migrates acc = true →
  written_with warn (account_lines acc) =
    if undecrypted acc then [Line warn (warning acc)] else [].
Proof.
  intros Hacc. unfold account_lines, written_with. rewrite filter_app.
  assert (throws_on (get acc "name") = true → undecrypted acc = false) as Hname.
  { intros Hname. destruct acc; try done; unfold migrates in Hacc;
      rewrite Hname, andb_true_r in Hacc; by apply negb_true_iff in Hacc. }
  destruct (thrown acc), (undecrypted acc) eqn:Hu; try done;
    destruct (throws_on (get acc "name")); try done; by specialize (Hname eq_refl).
Qed.

Lemma get_printed_serialized_settings doc :
  get (printed (serialized doc)) "settings" = printed <$> settings doc.
Proof. unfold serialized. simpl. by destruct (settings doc). Qed.

(** The warnings of accounts that all migrate: one for each account that
    was not decrypted, in order. *)
Lemma account_lines_warnings items :
  Forall (λ acc, migrates acc = true) items →
  written_with warn (concat (account_lines <$> items)) =
    (λ acc, Line warn (warning acc)) <$> filter (λ acc, undecrypted acc = true) items.
Proof.
  induction 1 as [|acc items Hacc _ IH]; [done|].
  rewrite fmap_cons. simpl. unfold written_with in *.
  rewrite filter_app, IH, filter_cons. fold (written_with warn (account_lines acc)).
  rewrite (account_lines_warn _ Hacc). by destruct (undecrypted acc).
Qed.

(** An account that was not decrypted, by its plaintext. *)
Lemma undecrypted_absent acc :
  get acc "encryptedCode" = undefined ∨
  get acc "encryptedCode" = Some JNull ∨
  get acc "encryptedCode" = Some (JStr "") →
  undecrypted acc = true ∧ thrown acc = None.
Proof. unfold undecrypted, thrown. by intros [->|[->| ->]]. Qed.

(** * The claims *)

(** C1.  An account whose [encryptedCode] is present (a truthy value: for a
    string, a non-empty one) and decrypts under [SECRET_KEY] to a non-empty
    string [S] is migrated, without a console line, to an account whose
    [code] is [S]; that account stands at the same index of the output
    document of every run that has the input account. *)
Theorem decrypted_code acc ciphertext S :
  get acc "encryptedCode" = Some ciphertext →
  truthy (Some ciphertext) = true →
  AES_decrypt_Utf8 ciphertext SECRET_KEY = Returns S →
  S ≠ "" →
  ∃ acc',
    migrate_account acc = ([], inr acc') ∧
    get acc' "code" = Some (JStr S) ∧
    ∀ fs items doc i,
      input_accounts fs = Some items →
      output_document fs = Some doc →
      items !! i = Some acc →
      accounts doc !! i = Some acc'.
Proof.
  intros Hget Htruthy Hdec HS.
  pose proof (migrate_account_decrypted _ _ _ Hget Htruthy Hdec HS) as Hacc.
  exists (with_code S acc). split; [done|]. split; [apply get_with_code|].
  intros fs items doc i. by apply output_account_eq with (out := []).
Qed.

(** C2.  When the accounts of the source document are an array, a run
    assembles an output document exactly when the account function
    returns on every account: none is [null], and none that gets the
    warning has a name that cannot be printed.  An output document has as
    many accounts as the input, the account at each index being the input
    account at that index with [encryptedCode] dropped and [code] set, as
    the account function returns it. *)
Theorem accounts_count_and_order fs items :
  input_accounts fs = Some items →
  (is_Some (output_document fs) ↔ Forall (λ acc, migrates acc = true) items) ∧
  ∀ doc,
    output_document fs = Some doc →
    files (migrate fs) !! TARGET_DB_PATH = Some (JSON_stringify (serialized doc)) ∧
    length (accounts doc) = length items ∧
    ∀ i acc,
      items !! i = Some acc →
      ∃ out c,
        migrate_account acc = (out, inr (with_code c acc)) ∧
        accounts doc !! i = Some (with_code c acc).
Proof.
  intros Hitems. split; [by apply output_document_is_Some|].
  intros doc Hdoc. destruct (documents_spec _ _ _ Hitems Hdoc) as [Hall Haccs].
  split; [|split].
  - rewrite migrate_files, Hdoc. apply lookup_insert_eq.
  - by rewrite Haccs, length_fmap.
  - intros i acc Hi. exists (account_lines acc), (plaintext acc). split.
    + apply migrate_account_migrates. by apply (Forall_lookup_1 _ _ _ _ Hall Hi).
    + by rewrite Haccs, list_lookup_fmap, Hi.
Qed.

(** C3, as the code has it.  On an account on which it returns, the
    account function gives an account that has every property of the
    input whose key is neither [encryptedCode] nor [code], with the same
    value; it has no [encryptedCode]; its [code] is a string; and its keys
    are the input's keys without [encryptedCode], in the same order, with
    [code] added last when the input has none.  A [code] of the input is
    overwritten. *)
Theorem passthrough_fields acc :
  migrates acc = true →
  ∃ out props,
    migrate_account acc = (out, inr (JObj props)) ∧
    (∀ k, k ≠ "encryptedCode" → k ≠ "code" →
          lookup_prop k props = lookup_prop k (own_enumerable acc)) ∧
    lookup_prop "encryptedCode" props = undefined ∧
    (∃ c, lookup_prop "code" props = Some (JStr c)) ∧
    keys props =
      (let ks := filter (λ k, k ≠ "encryptedCode") (keys (own_enumerable acc)) in
       if decide ("code" ∈ ks) then ks else ks ++ ["code"]).
Proof.
  intros Hacc. eexists _, _. split; [exact (migrate_account_migrates _ Hacc)|].
  repeat split.
  - intros k Hk Hk'.
    rewrite lookup_set_prop_ne by done. by apply lookup_omit_ne.
  - rewrite lookup_set_prop_ne by done. apply lookup_omit_eq.
  - eexists. apply lookup_set_prop_eq.
  - by rewrite keys_set_prop, keys_omit.
Qed.

(** C4, as the code has it.  An account whose [encryptedCode] is present
    and does not decrypt under [SECRET_KEY] (decryption throws, or yields
    the empty string), and whose name can be printed, is migrated to an
    account whose [code] is the empty string; exactly one warning is
    written, with the name of the account; and the map goes on: after any
    accounts that were migrated before it, the result of the whole map is
    that of the accounts after it, with this account's lines and output
    put in front. *)
Theorem undecryptable_code acc ciphertext :
  get acc "encryptedCode" = Some ciphertext →
  (∃ message, AES_decrypt_Utf8 ciphertext SECRET_KEY = Throws message) ∨
  AES_decrypt_Utf8 ciphertext SECRET_KEY = Returns "" →
  throws_on (get acc "name") = false →
  ∃ out acc',
    migrate_account acc = (out, inr acc') ∧
    get acc' "code" = Some (JStr "") ∧
    written_with warn out =
      [Line warn [Text "[WARN] Could not decrypt code for ";
                  Value (get acc "name"); Text ". Keeping null/empty."]] ∧
    ∀ before after out0 accs0,
      array_map migrate_account before = (out0, inr accs0) →
      array_map migrate_account (before ++ acc :: after) =
        (out0 ++ out ++ (array_map migrate_account after).1,
         match (array_map migrate_account after).2 with
         | inl e => inl e
         | inr accs => inr (accs0 ++ acc' :: accs)
         end).
Proof.
  intros Hget Hfails Hname.
  assert (undecrypted acc = true) as Hund.
  { unfold undecrypted. rewrite Hget. destruct (truthy (Some ciphertext)); [|done].
    by destruct Hfails as [[message ->]| ->]. }
  assert (migrates acc = true) as Hacc.
  { destruct acc; try done. unfold migrates. by rewrite Hname, andb_false_r. }
  pose proof (migrate_account_migrates _ Hacc) as Hout.
  apply undecrypted_plaintext in Hund as Hplain. rewrite Hplain in Hout.
  exists (account_lines acc), (with_code "" acc).
  split; [done|]. split; [apply get_with_code|]. split.
  - by rewrite (account_lines_warn _ Hacc), Hund.
  - intros before after out0 accs0 Hbefore.
    rewrite (array_map_app _ _ _ _ _ Hbefore), (array_map_step _ _ _ _ _ Hout). simpl.
    by destruct (array_map migrate_account after) as [out' [e|accs]].
Qed.

(** C5.  An account without [encryptedCode] (the field is absent, [null]
    or the empty string) has an empty [code] in any output the account
    function gives for it.  It gives one, after the warning and nothing
    else, when the account is not [null] and its name can be printed, and
    that account stands at the same index of the output document of every
    run that has the input account; when the name cannot be printed the
    function throws before it writes. *)
Theorem absent_code acc :
  get acc "encryptedCode" = undefined ∨
  get acc "encryptedCode" = Some JNull ∨
  get acc "encryptedCode" = Some (JStr "") →
  (∀ out acc',
     migrate_account acc = (out, inr acc') → get acc' "code" = Some (JStr "")) ∧
  (acc ≠ JNull →
   throws_on (get acc "name") = false →
   ∃ acc',
     migrate_account acc =
       ([Line warn [Text "[WARN] Could not decrypt code for ";
                    Value (get acc "name"); Text ". Keeping null/empty."]],
        inr acc') ∧
     get acc' "code" = Some (JStr "") ∧
     ∀ fs items doc i,
       input_accounts fs = Some items →
       output_document fs = Some doc →
       items !! i = Some acc →
       accounts doc !! i = Some acc') ∧
  (acc ≠ JNull →
   throws_on (get acc "name") = true →
   migrate_account acc = ([], inl (TypeError_not_primitive "acc.name"))).
Proof.
  intros [Hund Hthrown]%undecrypted_absent.
  apply undecrypted_plaintext in Hund as Hplain. split; [|split].
  - intros out acc' (_ & _ & ->)%migrate_account_returns.
    rewrite Hplain. apply get_with_code.
  - intros Hacc Hname.
    pose proof (migrate_account_spec _ Hacc) as Hout.
    unfold account_lines in Hout. rewrite Hthrown, Hund, Hname, Hplain in Hout.
    exists (with_code "" acc). split; [done|]. split; [apply get_with_code|].
    intros fs items doc i. by eapply output_account_eq.
  - intros Hacc Hname.
    pose proof (migrate_account_spec _ Hacc) as Hout.
    unfold account_lines in Hout. by rewrite Hthrown, Hund, Hname in Hout.
Qed.


(** C7.  When the source file does not exist, the files are left as they
    were, one error line is written, and the process exits with status 1. *)
Theorem missing_source fs :
  fs !! PARENT_DB_PATH = None →
  migrate fs =
    World fs [Line error [Text "Parent DB not found at ../db.json"]] (Some 1%Z).
Proof. intros Hraw. unfold migrate. by rewrite Hraw. Qed.

(** C8.  When the source file holds text that [JSON.parse] rejects, the
    files are left as they were, the top-level handler writes one error
    line with the [SyntaxError], and [process.exit] is not called. *)
Theorem invalid_json fs raw message :
  fs !! PARENT_DB_PATH = Some raw →
  JSON_parse raw = Throws message →
  migrate fs =
    World fs [Line error [Text "Migration failed:"; Caught (SyntaxError message)]] None.
Proof.
  intros Hraw Hparse. apply (migrate_failed _ _ [] _ Hraw).
  unfold newDb, throw, mbind, M_bind. by rewrite Hparse.
Qed.

(** C9, as the code has it.  In a run that migrates every account, the
    warning lines of the console are, in order, one line for each account
    from which no non-empty plaintext came out, with its name, and no
    other.  Such an account has no [encryptedCode], or a falsy one
    ([null], the empty string), or one whose decryption throws or yields
    the empty string: line 38 tests [plainCode], which is still [null]
    when there was nothing to decrypt. *)
Theorem warning_lines fs items :
  input_accounts fs = Some items →
  Forall (λ acc, migrates acc = true) items →
  written_with warn (stdio (migrate fs)) =
    (λ acc, Line warn [Text "[WARN] Could not decrypt code for ";
                       Value (get acc "name"); Text ". Keeping null/empty."])
      <$> filter (λ acc, undecrypted acc = true) items.
Proof.
  intros Hitems Hall.
  destruct (input_accounts_inv _ _ Hitems) as (raw & db & Hraw & Hparse & _ & Hacc).
  rewrite (migrate_saved _ _ _ _ Hraw (newDb_migrates _ _ _ Hparse Hacc Hall)).
  simpl. unfold written_with. rewrite filter_cons, filter_app. simpl.
  rewrite app_nil_r. exact (account_lines_warnings _ Hall).
Qed.

(** C10, as the code has it.  The document written has no top-level field
    but [accounts] and [settings]: [accounts], always, and after it
    [settings] when the input document has one.  When the input has no
    [settings], [newDb.settings] is [undefined] and [JSON.stringify]
    leaves the property out. *)
Theorem output_fields fs db doc :
  input_document fs = Some db →
  output_document fs = Some doc →
  files (migrate fs) !! TARGET_DB_PATH = Some (JSON_stringify (serialized doc)) ∧
  serialized doc =
    JObj (("accounts", JArr (accounts doc)) ::
          match get db "settings" with
          | Some s => [("settings", s)]
          | None => []
          end) ∧
  ∀ k, k ≠ "accounts" → k ≠ "settings" → get (serialized doc) k = undefined.
Proof.
  intros Hdb Hdoc.
  destruct (documents_inv _ _ Hdoc) as (db0 & items & out & Hdb0 & _ & _ & Hset).
  rewrite Hdb in Hdb0. injection Hdb0 as <-. split; [|split].
  - rewrite migrate_files, Hdoc. apply lookup_insert_eq.
  - unfold serialized. by rewrite Hset.
  - intros k Hk Hk'. unfold serialized. simpl.
    rewrite decide_False by done. destruct (settings doc); [simpl | done].
    by rewrite decide_False.
Qed.

(** * Further properties of the script *)

(** The lines of an account that migrates. *)
Lemma account_lines_migrates acc :
  migrates acc = true →
  account_lines acc =
    match thrown acc with
    | Some message => [decryption_error message]
    | None => []
    end ++
    if undecrypted acc then [Line warn (warning acc)] else [].
Proof.
  intros Hacc. unfold account_lines. f_equal.
  destruct (undecrypted acc) eqn:Hund; [|done].
  destruct (throws_on (get acc "name")) eqn:Hname; [|done].
  destruct acc; try done; unfold migrates in Hacc; by rewrite Hund, Hname in Hacc.
Qed.

(** An output account has nothing to decrypt. *)
Lemma with_code_undecrypted c acc :
  undecrypted (with_code c acc) = true ∧
  thrown (with_code c acc) = None ∧
  plaintext (with_code c acc) = "".
Proof.
  assert (get (with_code c acc) "encryptedCode" = undefined) as Hget.
  { unfold with_code. cbn [get]. by rewrite lookup_set_prop_ne, lookup_omit_eq. }
  unfold undecrypted, thrown, plaintext. by rewrite Hget.
Qed.

(** ** The file system *)

(** X1.  The script changes no file but [db.json]: every other path, the
    source among them, holds after the run what it held before, whether
    the run completes or fails. *)
Theorem other_files_untouched fs p :
  p ≠ TARGET_DB_PATH →
  files (migrate fs) !! p = fs !! p.
Proof.
  intros Hp. rewrite migrate_files.
  destruct (output_document fs); [by apply lookup_insert_ne | done].
Qed.

(** ** The console *)

(** X3.  The console of a run that migrates every account: the line with
    the number of accounts, then for each account in order its decryption
    error, if the library threw, followed by its warning, if it was not
    decrypted, then the success line; and [process.exit] is not called. *)
Theorem console_of_run fs items :
  input_accounts fs = Some items →
  Forall (λ acc, migrates acc = true) items →
  stdio (migrate fs) =
    Line log [Text "Loaded DB with "; Count (length items); Text " accounts."] ::
    concat ((λ acc,
               match thrown acc with
               | Some message =>
                   [Line error [Text "Decryption error:"; Text message]]
               | None => []
               end ++
               if undecrypted acc
               then [Line warn [Text "[WARN] Could not decrypt code for ";
                                Value (get acc "name");
                                Text ". Keeping null/empty."]]
               else []) <$> items) ++
    [Line log [Text "[SUCCESS] Migrated DB saved to db.json"]] ∧
  exit_code (migrate fs) = None.
Proof.
  intros Hitems Hall.
  destruct (input_accounts_inv _ _ Hitems) as (raw & db & Hraw & Hparse & _ & Hacc).
  rewrite (migrate_saved _ _ _ _ Hraw (newDb_migrates _ _ _ Hparse Hacc Hall)).
  split; [|done]. simpl. do 3 f_equal.
  apply Forall_fmap_ext_1. eapply Forall_impl; [done|].
  intros acc Hm. exact (account_lines_migrates _ Hm).
Qed.

(** X4.  A [null] account aborts the run at line 31: the accounts before
    it have been processed and their lines are on the console, the
    accounts after it are not looked at, nothing is written, and the
    handler reports the [TypeError]. *)
Theorem null_account_aborts fs before after :
  input_accounts fs = Some (before ++ JNull :: after) →
  Forall (λ acc, migrates acc = true) before →
  migrate fs =
    World fs
          (Line log [Text "Loaded DB with ";
                     Count (length (before ++ JNull :: after));
                     Text " accounts."] ::
           concat ((λ acc,
                      match thrown acc with
                      | Some message =>
                          [Line error [Text "Decryption error:"; Text message]]
                      | None => []
                      end ++
                      if undecrypted acc
                      then [Line warn [Text "[WARN] Could not decrypt code for ";
                                       Value (get acc "name");
                                       Text ". Keeping null/empty."]]
                      else []) <$> before) ++
           [Line error [Text "Migration failed:";
                        Caught (TypeError_nullish "acc" "encryptedCode")]])
          None.
Proof.
  intros Hitems Hall.
  destruct (input_accounts_inv _ _ Hitems) as (raw & db & Hraw & Hparse & _ & Hacc).
  pose proof (newDb_accounts _ _ _ Hparse Hacc) as Hrun.
  rewrite (array_map_app _ _ _ _ _ (array_map_migrates _ Hall)) in Hrun.
  rewrite (array_map_stop _ _ _ _ _ migrate_account_null) in Hrun.
  simpl in Hrun. rewrite app_nil_r in Hrun.
  rewrite (migrate_failed _ _ _ _ Hraw Hrun). f_equal. simpl. do 3 f_equal.
  apply Forall_fmap_ext_1. eapply Forall_impl; [done|].
  intros acc Hm. exact (account_lines_migrates _ Hm).
Qed.

(** X12.  An account that is to get the warning and whose name cannot be
    printed aborts the run at line 39, where the template literal converts
    the name: the accounts before it have been processed, its own
    decryption error, if any, is on the console and its warning is not,
    the accounts after it are not looked at, nothing is written, and the
    handler reports the [TypeError]. *)
Theorem unprintable_name_aborts fs before acc after :
  input_accounts fs = Some (before ++ acc :: after) →
  Forall (λ acc, migrates acc = true) before →
  acc ≠ JNull →
  undecrypted acc = true →
  throws_on (get acc "name") = true →
  migrate fs =
    World fs
          (Line log [Text "Loaded DB with ";
                     Count (length (before ++ acc :: after));
                     Text " accounts."] ::
           concat ((λ acc,
                      match thrown acc with
                      | Some message =>
                          [Line error [Text "Decryption error:"; Text message]]
                      | None => []
                      end ++
                      if undecrypted acc
                      then [Line warn [Text "[WARN] Could not decrypt code for ";
                                       Value (get acc "name");
                                       Text ". Keeping null/empty."]]
                      else []) <$> before) ++
           match thrown acc with
           | Some message => [Line error [Text "Decryption error:"; Text message]]
           | None => []
           end ++
           [Line error [Text "Migration failed:";
                        Caught (TypeError_not_primitive "acc.name")]])
          None.
Proof.
  intros Hitems Hall Hnull Hund Hname.
  destruct (input_accounts_inv _ _ Hitems) as (raw & db & Hraw & Hparse & _ & Hacc).
  pose proof (newDb_accounts _ _ _ Hparse Hacc) as Hrun.
  pose proof (migrate_account_spec _ Hnull) as Habort.
  unfold account_lines in Habort. rewrite Hund, Hname in Habort. simpl in Habort.
  rewrite app_nil_r in Habort.
  rewrite (array_map_app _ _ _ _ _ (array_map_migrates _ Hall)) in Hrun.
  rewrite (array_map_stop _ _ _ _ _ Habort) in Hrun. simpl in Hrun.
  rewrite (migrate_failed _ _ _ _ Hraw Hrun). f_equal.
  simpl. f_equal. rewrite <- app_assoc. do 2 f_equal.
  apply Forall_fmap_ext_1. eapply Forall_impl; [done|].
  intros acc0 Hm. exact (account_lines_migrates _ Hm).
Qed.

(** X5.  A document whose [accounts] is not an array makes the run fail
    with a [TypeError] and nothing written.  A [null] document fails on
    [db.accounts]; absent or [null] accounts fail on [.length]; in both
    cases no line is logged before.  A string has its length in code
    units logged, and fails on [.map]; so does an object whose own
    [length] can be printed, with that value logged, while one whose
    [length] cannot be printed fails at line 27 and logs nothing before; a
    number or a boolean has [undefined] logged for its length, and fails
    on [.map]. *)
Theorem accounts_not_an_array fs db :
  input_document fs = Some db →
  (db = JNull →
   migrate fs =
     World fs [Line error [Text "Migration failed:";
                           Caught (TypeError_nullish "db" "accounts")]] None) ∧
  (db ≠ JNull →
   get db "accounts" = undefined ∨ get db "accounts" = Some JNull →
   migrate fs =
     World fs [Line error [Text "Migration failed:";
                           Caught (TypeError_nullish "db.accounts" "length")]] None) ∧
  (∀ s,
     get db "accounts" = Some (JStr s) →
     migrate fs =
       World fs [Line log [Text "Loaded DB with "; Count (length (code_units s));
                           Text " accounts."];
                 Line error [Text "Migration failed:";
                             Caught (TypeError_not_a_function "db.accounts.map")]]
             None) ∧
  (∀ ps,
     get db "accounts" = Some (JObj ps) →
     migrate fs =
       World fs
             (if throws_on (lookup_prop "length" ps)
              then [Line error [Text "Migration failed:";
                                Caught (TypeError_not_primitive "db.accounts.length")]]
              else [Line log [Text "Loaded DB with ";
                              Value (lookup_prop "length" ps); Text " accounts."];
                    Line error [Text "Migration failed:";
                                Caught (TypeError_not_a_function "db.accounts.map")]])
             None) ∧
  (∀ v,
     get db "accounts" = Some v →
     (∃ b, v = JBool b) ∨ (∃ n, v = JNum n) →
     migrate fs =
       World fs [Line log [Text "Loaded DB with "; Value undefined;
                           Text " accounts."];
                 Line error [Text "Migration failed:";
                             Caught (TypeError_not_a_function "db.accounts.map")]]
             None).
Proof.
  intros (raw & Hraw & Hparse)%input_document_inv.
  assert (∀ out e, newDb raw = (out, inl e) →
                   migrate fs = World fs (out ++ [failed e]) None) as Hfail
    by (intros out e; by apply migrate_failed).
  repeat split; intros;
    [rewrite (Hfail [] (TypeError_nullish "db" "accounts"))
    |rewrite (Hfail [] (TypeError_nullish "db.accounts" "length"))
    |rewrite (Hfail [Line log [Text "Loaded DB with ";
                               Count (length (code_units s)); Text " accounts."]]
                    (TypeError_not_a_function "db.accounts.map"))
    |destruct (throws_on (lookup_prop "length" ps)) eqn:Hlength;
     [rewrite (Hfail [] (TypeError_not_primitive "db.accounts.length"))
     |rewrite (Hfail [Line log [Text "Loaded DB with ";
                                Value (lookup_prop "length" ps);
                                Text " accounts."]]
                     (TypeError_not_a_function "db.accounts.map"))]
    |rewrite (Hfail [Line log [Text "Loaded DB with "; Value undefined;
                               Text " accounts."]]
                    (TypeError_not_a_function "db.accounts.map"))];
    try done;
    unfold newDb, accounts_length, length_of, newAccounts, interpolate,
      console, throw;
    unfold mbind, M_bind, mret, M_ret; rewrite Hparse;
    destruct db; try done; simpl in *;
    repeat match goal with
           | H : _ ∨ _ |- _ => destruct H
           | H : ∃ _, _ |- _ => destruct H
           end; simplify_eq;
    repeat match goal with
           | H : lookup_prop "accounts" _ = _ |- _ => rewrite H
           end;
    rewrite ?Hlength; done.
Qed.

(** ** The accounts *)

(** X6.  In the output document the [code] of an account is the empty
    string exactly when the account function wrote the warning for the
    input account at that index, and exactly when no non-empty plaintext
    came out of it. *)
Theorem empty_code_iff_undecrypted fs items doc i acc :
  input_accounts fs = Some items →
  output_document fs = Some doc →
  items !! i = Some acc →
  ∃ out acc',
    migrate_account acc = (out, inr acc') ∧
    accounts doc !! i = Some acc' ∧
    (get acc' "code" = Some (JStr "") ↔
     Line warn [Text "[WARN] Could not decrypt code for ";
                Value (get acc "name"); Text ". Keeping null/empty."] ∈ out) ∧
    (get acc' "code" = Some (JStr "") ↔ undecrypted acc = true).
Proof.
  intros Hitems Hdoc Hi.
  destruct (documents_spec _ _ _ Hitems Hdoc) as [Hall Haccs].
  pose proof (Forall_lookup_1 _ _ _ _ Hall Hi) as Hm. simpl in Hm.
  exists (account_lines acc), (with_code (plaintext acc) acc).
  split; [by apply migrate_account_migrates|].
  split; [by rewrite Haccs, list_lookup_fmap, Hi|].
  assert (get (with_code (plaintext acc) acc) "code" = Some (JStr "") ↔
          undecrypted acc = true) as Hcode.
  { rewrite get_with_code, undecrypted_plaintext.
    split; [by intros [= ->] | by intros ->]. }
  split; [|done]. rewrite Hcode, (account_lines_migrates _ Hm).
  destruct (undecrypted acc).
  - split; [|done]. intros _. apply elem_of_app. right. apply list_elem_of_here.
  - split; [done|]. rewrite app_nil_r.
    destruct (thrown acc); [by intros [=]%list_elem_of_singleton|].
    by intros ?%elem_of_nil.
Qed.

(** X7.  The migration is not idempotent on an account: an output account
    has no [encryptedCode], so migrating it again erases the [code],
    whatever it was, after the warning, and keeps the other fields; or
    throws, when the name cannot be printed. *)
Theorem remigration_erases_code acc c :
  migrate_account (with_code c acc) =
    if throws_on (get (with_code c acc) "name")
    then ([], inl (TypeError_not_primitive "acc.name"))
    else ([Line warn [Text "[WARN] Could not decrypt code for ";
                      Value (get (with_code c acc) "name");
                      Text ". Keeping null/empty."]],
          inr (with_code "" acc)).
Proof.
  rewrite migrate_account_spec by done. unfold account_lines.
  destruct (with_code_undecrypted c acc) as (-> & -> & ->).
  rewrite with_code_with_code.
  by destruct (throws_on (get (with_code c acc) "name")).
Qed.

(** X8.  An account that is an array is migrated to an object: its
    elements become the properties named by their indices, in order, and
    [code], the empty string, comes last; the warning names it
    [undefined]. *)
Theorem array_account elems :
  ∃ props,
    migrate_account (JArr elems) =
      ([Line warn [Text "[WARN] Could not decrypt code for "; Value undefined;
                   Text ". Keeping null/empty."]],
       inr (JObj props)) ∧
    (∀ i, lookup_prop (index_key i) props = elems !! i) ∧
    lookup_prop "code" props = Some (JStr "") ∧
    keys props = (index_key <$> seq 0 (length elems)) ++ ["code"].
Proof.
  eexists. split; [by rewrite migrate_account_spec|].
  cbn [own_enumerable].
  rewrite omit_not_in
    by (apply (imap_no_key index_key id); intros j; apply index_key_not_code).
  split; [|split].
  - intros i. rewrite lookup_set_prop_ne
      by (intros Heq; by destruct (index_key_not_code i)).
    rewrite (lookup_prop_imap index_key id) by apply index_key_inj.
    by destruct (elems !! i).
  - apply lookup_set_prop_eq.
  - rewrite keys_set_prop, (keys_imap index_key id).
    rewrite decide_False; [done|].
    rewrite <- (keys_imap index_key id elems).
    apply (imap_no_key index_key id). intros j. apply index_key_not_code.
Qed.

(** X9.  The account function keeps the keys of an account distinct: when
    no two properties of the input have the same key, as in every value
    [JSON.parse] returns, no two properties of the output have. *)
Theorem distinct_keys_kept acc :
  migrates acc = true →
  NoDup (keys (own_enumerable acc)) →
  ∃ out props,
    migrate_account acc = (out, inr (JObj props)) ∧ NoDup (keys props).
Proof.
  intros Hacc Hkeys.
  eexists _, _. split; [exact (migrate_account_migrates _ Hacc)|].
  rewrite keys_set_prop, keys_omit.
  destruct (decide ("code" ∈ _)) as [Hin|Hin]; [by apply NoDup_filter|].
  apply NoDup_app. split; [by apply NoDup_filter|]. split.
  - by intros k Hk ->%list_elem_of_singleton.
  - apply NoDup_singleton.
Qed.

(** ** Running the script on its own output *)

(** The map over output accounts whose names can be printed. *)
Lemma array_map_with_code items :
  Forall (λ acc, throws_on (get (with_code (plaintext acc) acc) "name") = false)
         items →
  array_map migrate_account ((λ acc, with_code (plaintext acc) acc) <$> items) =
    ((λ acc', Line warn (warning acc')) <$>
       ((λ acc, with_code (plaintext acc) acc) <$> items),
     inr (with_code "" <$> items)).
Proof.
  induction 1 as [|acc items Hname _ IH]; [done|].
  rewrite !fmap_cons.
  assert (migrate_account (with_code (plaintext acc) acc) =
            ([Line warn (warning (with_code (plaintext acc) acc))],
             inr (with_code "" acc))) as Hacc.
  { rewrite migrate_account_spec by done. unfold account_lines.
    destruct (with_code_undecrypted (plaintext acc) acc) as (-> & -> & ->).
    by rewrite with_code_with_code, Hname. }
  by rewrite (array_map_step _ _ _ _ _ Hacc), IH.
Qed.

(** X11.  Run on a source that holds the text of its own output, when
    [JSON.parse] reads that text back and every name in it can be
    printed, the script completes and erases every [code]: each output
    account is the original account with [encryptedCode] dropped and an
    empty [code], [settings] is kept, and the console has one warning for
    every account. *)
Theorem second_run_erases_codes fs items doc fs' :
  input_accounts fs = Some items →
  output_document fs = Some doc →
  fs' !! PARENT_DB_PATH = Some (JSON_stringify (serialized doc)) →
  JSON_parse (JSON_stringify (serialized doc)) = Returns (serialized doc) →
  Forall (λ acc', throws_on (get acc' "name") = false) (accounts doc) →
  output_document fs' = Some (Document (with_code "" <$> items) (settings doc)) ∧
  stdio (migrate fs') =
    Line log [Text "Loaded DB with "; Count (length items); Text " accounts."] ::
    ((λ acc', Line warn [Text "[WARN] Could not decrypt code for ";
                         Value (get acc' "name"); Text ". Keeping null/empty."])
       <$> accounts doc) ++
    [Line log [Text "[SUCCESS] Migrated DB saved to db.json"]].
Proof.
  intros Hitems Hdoc Hraw Hparse Hnames.
  destruct (documents_spec _ _ _ Hitems Hdoc) as [_ Haccs].
  assert (get (serialized doc) "accounts" = Some (JArr (accounts doc))) as Hacc
    by done.
  pose proof (newDb_accounts _ _ _ Hparse Hacc) as Hrun.
  rewrite get_serialized_settings in Hrun.
  rewrite Haccs, Forall_fmap in Hnames.
  rewrite Haccs, (array_map_with_code _ Hnames), length_fmap in Hrun.
  cbn [fst snd] in Hrun. split.
  - unfold output_document. rewrite Hraw. simpl. by rewrite Hrun.
  - by rewrite (migrate_saved _ _ _ _ Hraw Hrun), Haccs.
Qed.

End Migrate.

(** ** What the script asks of the cipher *)

Section Ciphers.

Variable JSON_parse : string → attempt json.
Variable JSON_stringify : json → string.
Variables AES_decrypt_Utf8 AES_decrypt_Utf8' : json → string → attempt string.

(** The two ciphers agree under [SECRET_KEY] on every truthy ciphertext. *)
Hypothesis agree :
  ∀ ciphertext,
    truthy (Some ciphertext) = true →
    AES_decrypt_Utf8 ciphertext SECRET_KEY = AES_decrypt_Utf8' ciphertext SECRET_KEY.

Lemma migrate_account_agree acc :
  migrate_account AES_decrypt_Utf8 acc = migrate_account AES_decrypt_Utf8' acc.
Proof.
  unfold migrate_account, destructure, decrypt, mbind, M_bind.
  destruct acc; try done; simpl;
    destruct (lookup_prop "encryptedCode" props) as [ciphertext|]; try done.
  destruct (truthy (Some ciphertext)) eqn:Htruthy; [|done].
  by rewrite (agree _ Htruthy).
Qed.

Lemma array_map_ext (f g : json → M json) xs :
  (∀ x, f x = g x) → array_map f xs = array_map g xs.
Proof. intros Hfg. induction xs as [|x xs IH]; [done|]. simpl. by rewrite Hfg, IH. Qed.

Lemma newDb_agree raw :
  newDb JSON_parse AES_decrypt_Utf8 raw = newDb JSON_parse AES_decrypt_Utf8' raw.
Proof.
  unfold newDb, newAccounts, mbind, M_bind.
  destruct (JSON_parse raw) as [db|]; [simpl | done].
  destruct (accounts_length db) as [out [e|n]]; [done|]. simpl.
  destruct (get db "accounts") as [[| | | |items|]|]; try done.
  by rewrite (array_map_ext _ _ items migrate_account_agree).
Qed.

(** X10.  The script asks the cipher for nothing but the decryption under
    [SECRET_KEY] of an [encryptedCode] that is truthy: two ciphers that
    agree there give the same run, whatever they do under another key or
    on a falsy ciphertext. *)
Theorem cipher_asked_at_key_only fs :
  migrate JSON_parse JSON_stringify AES_decrypt_Utf8 fs =
  migrate JSON_parse JSON_stringify AES_decrypt_Utf8' fs.
Proof.
  unfold migrate. destruct (fs !! PARENT_DB_PATH) as [raw|]; [|done].
  by rewrite newDb_agree.
Qed.

End Ciphers.

(** * The claims on the sample run *)

Import Sample.

(** The sample run. *)
Lemma sample_run :
  input_document parse fs = Some db ∧
  input_accounts parse fs = Some [acct1; acct2; acct3; acct4; acct5] ∧
  output_document parse cipher fs = Some (Document migrated (Some theme)).
Proof. by vm_compute. Qed.

Lemma decrypted_code_witness :
  ∃ acc',
    migrate_account cipher acct1 = ([], inr acc') ∧
    get acc' "code" = Some (JStr "ABC123") ∧
    ∀ fs items doc i,
      input_accounts parse fs = Some items →
      output_document parse cipher fs = Some doc →
      items !! i = Some acct1 →
      accounts doc !! i = Some acc'.
Proof.
  apply (decrypted_code parse cipher acct1 (JStr "U2FsdGVkX1+validCipherOfABC123"));
    [reflexivity | reflexivity | reflexivity | discriminate].
Defined.

Lemma accounts_count_and_order_witness :
  input_accounts parse fs = Some [acct1; acct2; acct3; acct4; acct5] ∧
  ∃ doc,
    output_document parse cipher fs = Some doc ∧
    length (accounts doc) = 5 ∧
    ∃ out c,
      migrate_account cipher acct3 = (out, inr (with_code c acct3)) ∧
      accounts doc !! 2 = Some (with_code c acct3).
Proof.
  split; [by vm_compute|].
  destruct (accounts_count_and_order parse stringify cipher fs
              [acct1; acct2; acct3; acct4; acct5]) as [Hsome Hdoc];
    [by vm_compute|].
  destruct (proj2 Hsome) as [doc Hrun]; [by repeat constructor|].
  destruct (Hdoc doc Hrun) as (_ & Hlength & Hindex).
  exists doc. split; [done|]. split; [done|]. by apply Hindex.
Defined.

Lemma passthrough_fields_witness :
  migrates cipher acct3 = true ∧
  ∃ out props,
    migrate_account cipher acct3 = (out, inr (JObj props)) ∧
    lookup_prop "name" props = Some (JStr "acct3") ∧
    lookup_prop "level" props = Some (JNum 7%float) ∧
    lookup_prop "encryptedCode" props = undefined ∧
    keys props = ["name"; "level"; "code"].
Proof.
  split; [reflexivity|].
  destruct (passthrough_fields cipher acct3)
    as (out & props & Hacc & Hsame & Hdropped & _ & Hkeys); [reflexivity|].
  exists out, props. split; [done|].
  rewrite !Hsame by discriminate. by rewrite Hkeys.
Defined.

Lemma undecryptable_code_witness :
  get acct3 "encryptedCode" = Some (JStr "!corrupted") ∧
  cipher (JStr "!corrupted") SECRET_KEY = Throws "Malformed UTF-8 data" ∧
  throws_on (get acct3 "name") = false ∧
  ∃ out acc',
    migrate_account cipher acct3 = (out, inr acc') ∧
    get acc' "code" = Some (JStr "") ∧
    written_with warn out =
      [Line warn [Text "[WARN] Could not decrypt code for ";
                  Value (Some (JStr "acct3")); Text ". Keeping null/empty."]] ∧
    array_map (migrate_account cipher) [acct1; acct2; acct3; acct4; acct5] =
      ([Line warn [Text "[WARN] Could not decrypt code for ";
                   Value (Some (JStr "acct2")); Text ". Keeping null/empty."]] ++
       out ++
       [Line warn [Text "[WARN] Could not decrypt code for ";
                   Value (Some (JStr "acct4")); Text ". Keeping null/empty."];
        Line warn [Text "[WARN] Could not decrypt code for ";
                   Value (Some (JStr "acct5")); Text ". Keeping null/empty."]],
       inr ([with_code "ABC123" acct1; with_code "" acct2] ++
            acc' :: [with_code "" acct4; with_code "" acct5])).
Proof.
  split; [reflexivity|]. split; [reflexivity|]. split; [reflexivity|].
  destruct (undecryptable_code cipher acct3 (JStr "!corrupted"))
    as (out & acc' & Hacc & Hcode & Hwarn & Hgoes_on);
    [reflexivity | left; by eexists | reflexivity |].
  exists out, acc'. split; [done|]. split; [done|]. split; [done|].
  exact (Hgoes_on [acct1; acct2] [acct4; acct5] _ _ eq_refl).
Defined.

Lemma absent_code_witness :
  acct2 ≠ JNull ∧
  throws_on (get acct2 "name") = false ∧
  ∃ acc',
    migrate_account cipher acct2 =
      ([Line warn [Text "[WARN] Could not decrypt code for ";
                   Value (Some (JStr "acct2")); Text ". Keeping null/empty."]],
       inr acc') ∧
    get acc' "code" = Some (JStr "") ∧
    ∀ fs items doc i,
      input_accounts parse fs = Some items →
      output_document parse cipher fs = Some doc →
      items !! i = Some acct2 →
      accounts doc !! i = Some acc'.
Proof.
  split; [discriminate|]. split; [reflexivity|].
  destruct (absent_code parse cipher acct2) as (_ & Hreturns & _);
    [left; reflexivity|].
  apply Hreturns; [discriminate | reflexivity].
Defined.


Lemma missing_source_witness :
  migrate parse stringify cipher fs_without_source =
    World fs_without_source
          [Line error [Text "Parent DB not found at ../db.json"]] (Some 1%Z).
Proof. apply missing_source. by vm_compute. Defined.

Lemma invalid_json_witness :
  migrate parse stringify cipher fs_invalid =
    World fs_invalid
          [Line error [Text "Migration failed:";
                       Caught (SyntaxError "Unexpected end of JSON input")]]
          None.
Proof. apply (invalid_json parse stringify cipher fs_invalid "{"); by vm_compute. Defined.

Lemma warning_lines_witness :
  written_with warn (stdio (migrate parse stringify cipher fs)) =
    [Line warn [Text "[WARN] Could not decrypt code for ";
                Value (Some (JStr "acct2")); Text ". Keeping null/empty."];
     Line warn [Text "[WARN] Could not decrypt code for ";
                Value (Some (JStr "acct3")); Text ". Keeping null/empty."];
     Line warn [Text "[WARN] Could not decrypt code for ";
                Value (Some (JStr "acct4")); Text ". Keeping null/empty."];
     Line warn [Text "[WARN] Could not decrypt code for ";
                Value (Some (JStr "acct5")); Text ". Keeping null/empty."]].
Proof.
  rewrite (warning_lines parse stringify cipher fs [acct1; acct2; acct3; acct4; acct5]);
    [reflexivity | by vm_compute | by repeat constructor].
Defined.

Lemma output_fields_witness :
  files (migrate parse stringify cipher fs) !! TARGET_DB_PATH =
    Some (stringify (serialized (Document migrated (Some theme)))) ∧
  serialized (Document migrated (Some theme)) =
    JObj [("accounts", JArr migrated); ("settings", theme)] ∧
  get (serialized (Document migrated (Some theme))) "version" = undefined.
Proof.
  destruct (output_fields parse stringify cipher fs db (Document migrated (Some theme)))
    as (Hfile & Hfields & Hnone); [by vm_compute | by vm_compute |].
  split; [done|]. split; [done|]. by apply Hnone.
Defined.

(** C3 as stated fails: [acct4] has a [code] of its own, a field whose key
    is not [encryptedCode], and the output account holds another value
    under [code]. *)
Lemma code_field_overwritten :
  lookup_prop "code" (own_enumerable acct4) = Some (JNum 7%float) ∧
  "code" ≠ "encryptedCode" ∧
  migrate_account cipher acct4 =
    ([Line warn (warning acct4)],
     inr (JObj [("name", JStr "acct4"); ("code", JStr "")])) ∧
  lookup_prop "code" [("name", JStr "acct4"); ("code", JStr "")]
    ≠ lookup_prop "code" (own_enumerable acct4).
Proof. repeat split; (reflexivity || discriminate). Qed.

(** C10 as stated fails: the source document has [accounts] and [version]
    and no [settings], and the document written has the one field
    [accounts]. *)
Lemma settings_left_out :
  input_document parse fs_without_settings = Some db_without_settings ∧
  get db_without_settings "settings" = undefined ∧
  (serialized <$> output_document parse cipher fs_without_settings) =
    Some (JObj [("accounts",
                 JArr [JObj [("name", JStr "acct1"); ("code", JStr "ABC123")];
                       JObj [("name", JStr "acct2"); ("code", JStr "")]])]) ∧
  files (migrate parse stringify cipher fs_without_settings) !! TARGET_DB_PATH =
    Some "accounts".
Proof. by vm_compute. Qed.

(** C9 as stated fails: [acct2] has no [encryptedCode], so no code of it
    could fail to decrypt, and the run writes a warning line for it. *)
Lemma warning_without_ciphertext :
  input_accounts parse fs_without_settings = Some [acct1; acct2] ∧
  get acct1 "encryptedCode" = Some (JStr "U2FsdGVkX1+validCipherOfABC123") ∧
  cipher (JStr "U2FsdGVkX1+validCipherOfABC123") SECRET_KEY = Returns "ABC123" ∧
  get acct2 "encryptedCode" = undefined ∧
  written_with warn (stdio (migrate parse stringify cipher fs_without_settings)) =
    [Line warn [Text "[WARN] Could not decrypt code for ";
                Value (Some (JStr "acct2")); Text ". Keeping null/empty."]].
Proof. by vm_compute. Qed.

(** * The further properties on sample runs *)

Import Edge.

(** C4 as stated fails: the [encryptedCode] of [acct_unprintable] does not
    decrypt and its name cannot be printed; the account function throws
    at line 39, after the decryption error and before any warning, and
    the run stops there: the account after it is not migrated and nothing
    is written. *)
Lemma unprintable_name_stops_the_run :
  get acct_unprintable "encryptedCode" = Some (JStr "!corrupted") ∧
  cipher (JStr "!corrupted") SECRET_KEY = Throws "Malformed UTF-8 data" ∧
  migrate_account cipher acct_unprintable =
    ([Line error [Text "Decryption error:"; Text "Malformed UTF-8 data"]],
     inl (TypeError_not_primitive "acc.name")) ∧
  input_accounts parse fs_unprintable = Some [acct2; acct_unprintable; acct1] ∧
  migrate parse stringify cipher fs_unprintable =
    World fs_unprintable
          [Line log [Text "Loaded DB with "; Count 3; Text " accounts."];
           Line warn [Text "[WARN] Could not decrypt code for ";
                      Value (Some (JStr "acct2")); Text ". Keeping null/empty."];
           Line error [Text "Decryption error:"; Text "Malformed UTF-8 data"];
           Line error [Text "Migration failed:";
                       Caught (TypeError_not_primitive "acc.name")]]
          None.
Proof. by vm_compute. Qed.


Lemma other_files_untouched_witness :
  PARENT_DB_PATH ≠ TARGET_DB_PATH ∧
  files (migrate Sample.parse stringify cipher fs) !! PARENT_DB_PATH =
    fs !! PARENT_DB_PATH.
Proof.
  split; [discriminate|].
  apply (other_files_untouched Sample.parse stringify cipher fs PARENT_DB_PATH).
  discriminate.
Defined.

Lemma console_of_run_witness :
  stdio (migrate Sample.parse stringify cipher fs) =
    [Line log [Text "Loaded DB with "; Count 5; Text " accounts."];
     Line warn [Text "[WARN] Could not decrypt code for ";
                Value (Some (JStr "acct2")); Text ". Keeping null/empty."];
     Line error [Text "Decryption error:"; Text "Malformed UTF-8 data"];
     Line warn [Text "[WARN] Could not decrypt code for ";
                Value (Some (JStr "acct3")); Text ". Keeping null/empty."];
     Line warn [Text "[WARN] Could not decrypt code for ";
                Value (Some (JStr "acct4")); Text ". Keeping null/empty."];
     Line warn [Text "[WARN] Could not decrypt code for ";
                Value (Some (JStr "acct5")); Text ". Keeping null/empty."];
     Line log [Text "[SUCCESS] Migrated DB saved to db.json"]] ∧
  exit_code (migrate Sample.parse stringify cipher fs) = None.
Proof.
  apply (console_of_run Sample.parse stringify cipher fs
           [acct1; acct2; acct3; acct4; acct5]);
    [by vm_compute | by repeat constructor].
Defined.

Lemma null_account_aborts_witness :
  migrate parse stringify cipher fs_null_account =
    World fs_null_account
          [Line log [Text "Loaded DB with "; Count 3; Text " accounts."];
           Line error [Text "Decryption error:"; Text "Malformed UTF-8 data"];
           Line warn [Text "[WARN] Could not decrypt code for ";
                      Value (Some (JStr "acct3")); Text ". Keeping null/empty."];
           Line error [Text "Migration failed:";
                       Caught (TypeError_nullish "acc" "encryptedCode")]]
          None.
Proof.
  apply (null_account_aborts parse stringify cipher fs_null_account [acct3] [acct1]);
    [by vm_compute | by repeat constructor].
Defined.

Lemma unprintable_name_aborts_witness :
  migrate parse stringify cipher fs_unprintable =
    World fs_unprintable
          [Line log [Text "Loaded DB with "; Count 3; Text " accounts."];
           Line warn [Text "[WARN] Could not decrypt code for ";
                      Value (Some (JStr "acct2")); Text ". Keeping null/empty."];
           Line error [Text "Decryption error:"; Text "Malformed UTF-8 data"];
           Line error [Text "Migration failed:";
                       Caught (TypeError_not_primitive "acc.name")]]
          None.
Proof.
  apply (unprintable_name_aborts parse stringify cipher fs_unprintable
           [acct2] acct_unprintable [acct1]);
    [by vm_compute | by repeat constructor | discriminate
    | reflexivity | reflexivity].
Defined.

Lemma accounts_not_an_array_witness :
  migrate parse stringify cipher fs_accounts_string =
    World fs_accounts_string
          [Line log [Text "Loaded DB with "; Count 4; Text " accounts."];
           Line error [Text "Migration failed:";
                       Caught (TypeError_not_a_function "db.accounts.map")]]
          None ∧
  migrate parse stringify cipher fs_accounts_object =
    World fs_accounts_object
          [Line error [Text "Migration failed:";
                       Caught (TypeError_not_primitive "db.accounts.length")]]
          None.
Proof.
  split.
  - destruct (accounts_not_an_array parse stringify cipher fs_accounts_string
                db_accounts_string) as (_ & _ & Hstring & _); [by vm_compute|].
    by apply (Hstring "a€😀").
  - destruct (accounts_not_an_array parse stringify cipher fs_accounts_object
                db_accounts_object) as (_ & _ & _ & Hobject & _); [by vm_compute|].
    by apply (Hobject [("length", nameless)]).
Defined.

Lemma empty_code_iff_undecrypted_witness :
  ∃ out acc',
    migrate_account cipher acct3 = (out, inr acc') ∧
    accounts (Document migrated (Some theme)) !! 2 = Some acc' ∧
    (get acc' "code" = Some (JStr "") ↔
     Line warn [Text "[WARN] Could not decrypt code for ";
                Value (get acct3 "name"); Text ". Keeping null/empty."] ∈ out) ∧
    (get acc' "code" = Some (JStr "") ↔ undecrypted cipher acct3 = true).
Proof.
  apply (empty_code_iff_undecrypted Sample.parse cipher fs
           [acct1; acct2; acct3; acct4; acct5]); by vm_compute.
Defined.

Lemma distinct_keys_kept_witness :
  NoDup (keys (own_enumerable acct3)) ∧
  ∃ out props,
    migrate_account cipher acct3 = (out, inr (JObj props)) ∧ NoDup (keys props).
Proof.
  assert (NoDup (keys (own_enumerable acct3))) as Hkeys.
  { vm_compute. repeat constructor; intros Hin;
      repeat (apply elem_of_cons in Hin as [Hin|Hin]; [discriminate|]);
      by apply elem_of_nil in Hin. }
  split; [done|]. apply (distinct_keys_kept cipher acct3); [reflexivity | done].
Defined.

Lemma cipher_asked_at_key_only_witness :
  other_cipher (JStr "") SECRET_KEY ≠ cipher (JStr "") SECRET_KEY ∧
  other_cipher (JStr "!corrupted") "key" ≠ cipher (JStr "!corrupted") "key" ∧
  migrate Sample.parse stringify cipher fs =
    migrate Sample.parse stringify other_cipher fs.
Proof.
  split; [discriminate|]. split; [discriminate|].
  apply cipher_asked_at_key_only. intros ciphertext Htruthy.
  unfold other_cipher. rewrite decide_True by done.
  by destruct ciphertext as [| | |[|c s]| |].
Defined.

Lemma second_run_erases_codes_witness :
  output_document parse_back cipher fs_migrated =
    Some (Document (with_code "" <$> [acct1; acct2; acct3; acct4; acct5])
                   (Some theme)) ∧
  stdio (migrate parse_back print cipher fs_migrated) =
    Line log [Text "Loaded DB with "; Count 5; Text " accounts."] ::
    ((λ acc', Line warn [Text "[WARN] Could not decrypt code for ";
                         Value (get acc' "name"); Text ". Keeping null/empty."])
       <$> migrated) ++
    [Line log [Text "[SUCCESS] Migrated DB saved to db.json"]].
Proof.
  apply (second_run_erases_codes parse_back print cipher fs
           [acct1; acct2; acct3; acct4; acct5] (Document migrated (Some theme))
           fs_migrated); try by vm_compute.
  by repeat constructor.
Defined.
